(** * Manifest finder of the /scrape endpoint (src/index.js)

    A shallow embedding of [findMinimalM3u8Link] and of the route handler
    that calls it.  The browser automation engine is an external
    collaborator: every answer it gives (the outcome of a call, the
    requests it delivers and when) is read from an [engine] value, so each
    theorem below quantifies over all behaviours of the engine.

    Time is counted in milliseconds from the moment the wait begins. *)

From Stdlib Require Import String Ascii List NArith Bool Arith Lia Sorted.
From Stdlib Require Import DecimalString.
Import ListNotations.
Open Scope string_scope.
Open Scope list_scope.
Open Scope nat_scope.

(** ** JavaScript values held by [url] and [m3u8Link] *)

Inductive jsval : Type :=
| JUndefined
| JNull
| JString (s : string).

(** [ToBoolean]: [undefined], [null] and the empty string are falsy. *)
Definition truthy (v : jsval) : bool :=
  match v with
  | JString s => negb (s =? "")%string
  | _ => false
  end.

(** Template-literal interpolation. *)
Definition toString (v : jsval) : string :=
  match v with
  | JUndefined => "undefined"
  | JNull => "null"
  | JString s => s
  end.

(** A number in a template literal (for the natural numbers the code
    prints). *)
Definition decimal (n : N) : string := NilEmpty.string_of_uint (N.to_uint n).

(** The line feed of the escape [\n]. *)
Definition LF : string := String "010"%char "".

(** ** [String.prototype.endsWith]

    With the default end position: [start = len - searchLength], false when
    negative, otherwise the code units from [start] are compared with the
    search string. *)
Definition endsWith (s search : string) : bool :=
  let len := String.length s in
  let searchLength := String.length search in
  if len <? searchLength then false
  else (substring (len - searchLength) searchLength s =? search)%string.

(** The suffix tested at line 54. *)
Definition manifestSuffix : string := ".m3u8".

Definition qualifies (requestUrl : string) : bool :=
  endsWith requestUrl manifestSuffix.

(** The predicate in the words of the specification: the URL literally ends
    with the suffix. *)
Definition ends_with_suffix (requestUrl : string) : Prop :=
  exists prefix, requestUrl = (prefix ++ manifestSuffix)%string.

(** ** Constants of the route handler *)

Definition PORT : N := 3000.
Definition targetUrl : string := "https://www.bloomberg.com/live/us".
Definition findTimeout : N := 10000.

(** ** The browser automation engine

    An awaited call to the engine either resolves or rejects with an
    error.  Of a thrown error the model keeps the one text the code reads
    from it: for the calls of the setup, the text the error converts to
    in the template literal of line 138 (such as "Error: ..." or
    "TimeoutError: ..."); for [setRequestInterception(false)], the
    [message] printed at line 71; for [browser.close()], which nothing
    catches, the text that names the rejection. *)

Inductive result : Type :=
| Ok
| Throws (thrown : string).

(** An intercepted request, with the answers the engine gives while the
    listener handles it. *)
Record request : Type := {
  url : string;                          (* request.url() *)
  isInterceptResolutionHandled : bool;   (* request.isInterceptResolutionHandled() *)
  abort : result;                        (* await request.abort() *)
  continue : result;                     (* await request.continue() *)
  isClosed : bool;                       (* currentPage.isClosed() *)
  disableInterception : result           (* await currentPage.setRequestInterception(false) *)
}.

(** What the page delivers to the listeners installed by the search: a
    request, or the rejection of the promise returned by [page.goto]. *)
Inductive event : Type :=
| Request (r : request)
| GotoRejected (message : string).

(** An event and the time elapsed since the previous one. *)
Record timed : Type := {
  delay : N;
  what : event
}.

Record engine : Type := {
  launch : result;               (* await puppeteer.launch(...); throws `${error}` *)
  newPage : result;              (* await browser.newPage(); throws `${error}` *)
  setUserAgent : result;         (* await page.setUserAgent(...); throws `${error}` *)
  enableInterception : result;   (* await page.setRequestInterception(true); throws `${error}` *)
  trace : list timed;            (* events of the page once navigation starts *)
  closing : N;                   (* how long browser.close() takes to settle *)
  close : result                 (* await browser.close() *)
}.

(** ** State of one call *)

Inductive call : Type :=
| PuppeteerLaunch
| BrowserNewPage
| PageSetUserAgent
| PageSetRequestInterception (on : bool)
| RequestAbort (r : request)
| RequestContinue (r : request)
| BrowserClose.

(** The record of what happened, oldest first. *)
Inductive action : Type :=
| Called (c : call) (res : result)   (* an awaited engine call and how it settled *)
| Navigating (u : string)            (* page.goto(u, ...) started, not awaited *)
| Observed (t : N) (r : request)     (* the request listener was entered at time t *)
| Assigned (u : string)              (* m3u8Link = requestUrl *)
| Escaped (message : string).        (* a listener rejected: nobody awaits it *)

Inductive level : Type := Log | Warn | Error.

Record state : Type := {
  browser : bool;                    (* browser !== null *)
  page : bool;                       (* page !== null *)
  m3u8Link : jsval;
  linkFound : option N;              (* when linkFoundPromise was resolved *)
  raceSettled : option N;            (* when await Promise.race(...) returned *)
  inbox : list (N * event);          (* events still to be delivered, with their time *)
  console : list (level * string);
  history : list action
}.

Definition fresh : state := {|
  browser := false; page := false; m3u8Link := JNull; linkFound := None;
  raceSettled := None; inbox := []; console := []; history := []
|}.

Definition set_browser (b : bool) (st : state) : state :=
  {| browser := b; page := page st; m3u8Link := m3u8Link st;
     linkFound := linkFound st; raceSettled := raceSettled st;
     inbox := inbox st; console := console st; history := history st |}.

Definition set_page (b : bool) (st : state) : state :=
  {| browser := browser st; page := b; m3u8Link := m3u8Link st;
     linkFound := linkFound st; raceSettled := raceSettled st;
     inbox := inbox st; console := console st; history := history st |}.

Definition set_inbox (q : list (N * event)) (st : state) : state :=
  {| browser := browser st; page := page st; m3u8Link := m3u8Link st;
     linkFound := linkFound st; raceSettled := raceSettled st;
     inbox := q; console := console st; history := history st |}.

Definition set_raceSettled (t : option N) (st : state) : state :=
  {| browser := browser st; page := page st; m3u8Link := m3u8Link st;
     linkFound := linkFound st; raceSettled := t;
     inbox := inbox st; console := console st; history := history st |}.

Definition print (l : level) (message : string) (st : state) : state :=
  {| browser := browser st; page := page st; m3u8Link := m3u8Link st;
     linkFound := linkFound st; raceSettled := raceSettled st;
     inbox := inbox st; console := console st ++ [(l, message)];
     history := history st |}.

Definition note (a : action) (st : state) : state :=
  {| browser := browser st; page := page st; m3u8Link := m3u8Link st;
     linkFound := linkFound st; raceSettled := raceSettled st;
     inbox := inbox st; console := console st; history := history st ++ [a] |}.

(** [m3u8Link = requestUrl]. *)
Definition assign (requestUrl : string) (st : state) : state :=
  {| browser := browser st; page := page st; m3u8Link := JString requestUrl;
     linkFound := linkFound st; raceSettled := raceSettled st;
     inbox := inbox st; console := console st;
     history := history st ++ [Assigned requestUrl] |}.

(** [linkFoundResolver()]: resolving a promise that is already resolved
    does nothing. *)
Definition resolveLinkFound (now : N) (st : state) : state :=
  {| browser := browser st; page := page st; m3u8Link := m3u8Link st;
     linkFound := match linkFound st with Some t => Some t | None => Some now end;
     raceSettled := raceSettled st;
     inbox := inbox st; console := console st; history := history st |}.

(** ** Computations that may throw *)

Definition M (A : Type) : Type := state -> (A + string) * state.

Definition ret {A : Type} (a : A) : M A := fun st => (inl a, st).

Definition bind {A B : Type} (m : M A) (k : A -> M B) : M B :=
  fun st =>
    match m st with
    | (inl a, st') => k a st'
    | (inr e, st') => (inr e, st')
    end.

Notation "x <- m ;; k" := (bind m (fun x => k))
  (at level 61, m at next level, right associativity).
Notation "m ;; k" := (bind m (fun _ => k))
  (at level 61, right associativity).

Definition gets {A : Type} (f : state -> A) : M A := fun st => (inl (f st), st).

Definition modify (f : state -> state) : M unit := fun st => (inl tt, f st).

(** [try { body } catch (e) { handler }]. *)
Definition try_catch {A : Type} (body : M A) (handler : string -> M A) : M A :=
  fun st =>
    match body st with
    | (inl a, st') => (inl a, st')
    | (inr e, st') => handler e st'
    end.

(** [try { body } catch (e) { handler } finally { cleanup }]: the cleanup
    always runs, and an exception it throws replaces the outcome. *)
Definition try_catch_finally {A : Type}
    (body : M A) (handler : string -> M A) (cleanup : M unit) : M A :=
  fun st =>
    let (r, st1) := try_catch body handler st in
    match cleanup st1 with
    | (inl _, st2) => (r, st2)
    | (inr e, st2) => (inr e, st2)
    end.

Definition console_log (l : level) (message : string) : M unit :=
  modify (print l message).

(** An awaited engine call: it is recorded, and throws when it rejects. *)
Definition await (c : call) (res : result) : M unit :=
  fun st =>
    (match res with Ok => inl tt | Throws e => inr e end, note (Called c res) st).

(** ** The listeners *)

(** [page.on("request", async (request) => ...)], lines 49-101.  The
    assignment to [m3u8Link] and the call of the resolver happen before
    the first [await] of the listener, so a listener is one step as far as
    the variables of the search are concerned. *)
Definition onRequest (now : N) (req : request) : M unit :=
  modify (note (Observed now req)) ;;
  currentPage <- gets page ;;
  let requestUrl := url req in
  link <- gets m3u8Link ;;
  if endsWith requestUrl ".m3u8" && negb (truthy link) then
    console_log Log ("---> Found potential M3U8 request: " ++ requestUrl) ;;
    modify (assign requestUrl) ;;
    modify (resolveLinkFound now) ;;
    try_catch
      (if currentPage && negb (isClosed req)
       then await (PageSetRequestInterception false) (disableInterception req)
       else ret tt)
      (fun e =>
         console_log Warn
           ("Warning: Could not disable request interception during cleanup. " ++ e)) ;;
    try_catch
      (if negb (isInterceptResolutionHandled req)
       then await (RequestAbort req) (abort req)
       else ret tt)
      (fun _ => ret tt)
  else
    link' <- gets m3u8Link ;;
    if negb (truthy link') then
      try_catch
        (if negb (isInterceptResolutionHandled req)
         then await (RequestContinue req) (continue req)
         else ret tt)
        (fun _ => ret tt)
    else
      try_catch
        (if negb (isInterceptResolutionHandled req)
         then await (RequestAbort req) (abort req)
         else ret tt)
        (fun _ => ret tt).

(** [page.goto(...).catch((e) => ...)], lines 108-121. *)
Definition onGotoRejected (message : string) : M unit :=
  link <- gets m3u8Link ;;
  if negb (truthy link) then
    console_log Warn
      ("Navigation potentially failed before M3U8 link found: " ++ message)
  else
    console_log Log
      "Navigation ended (or timed out), but M3U8 link was already found.".

Definition listener (now : N) (e : event) : M unit :=
  match e with
  | Request r => onRequest now r
  | GotoRejected message => onGotoRejected message
  end.

(** The event loop runs a listener; nothing awaits the promise it returns,
    so a rejection would only be recorded. *)
Definition dispatch (now : N) (e : event) (st : state) : state :=
  match listener now e st with
  | (inl _, st') => st'
  | (inr err, st') => note (Escaped err) st'
  end.

(** ** The event loop while the search is suspended *)

(** Absolute times of a trace that starts at [now]. *)
Fixpoint stamp (now : N) (tr : list timed) : list (N * event) :=
  match tr with
  | [] => []
  | e :: tr' => let t := (now + delay e)%N in (t, what e) :: stamp t tr'
  end.

(** Deliver the events of [q] in order until [stop] holds at the time of
    the next one; the events not delivered are returned. *)
Fixpoint pump (stop : state -> N -> bool) (q : list (N * event)) (st : state)
  : list (N * event) * state :=
  match q with
  | [] => ([], st)
  | (t, e) :: q' =>
      if stop st t then (q, st) else pump stop q' (dispatch t e st)
  end.

Definition run_until (stop : state -> N -> bool) : M unit :=
  fun st => let (q, st') := pump stop (inbox st) st in (inl tt, set_inbox q st').

(** A promise that never rejects: [None] while pending, [Some t] once
    resolved at time [t]. *)
Definition promise : Type := option N.

(** [new Promise((resolve) => setTimeout(resolve, ms))]. *)
Definition timer (ms : N) : promise := Some ms.

(** [Promise.race([p, q])] resolves when the first of the two does. *)
Definition Promise_race (p q : promise) : promise :=
  match p, q with
  | Some a, Some b => Some (N.min a b)
  | Some a, None => Some a
  | None, Some b => Some b
  | None, None => None
  end.

Definition resolved_by (p : promise) (t : N) : bool :=
  match p with
  | Some s => (s <=? t)%N
  | None => false
  end.

(** [await Promise.race([linkFoundPromise, timer])], lines 127-130: events
    are delivered until the race is resolved. *)
Definition await_race : M unit :=
  run_until
    (fun st t => resolved_by (Promise_race (linkFound st) (timer findTimeout)) t) ;;
  modify (fun st =>
            set_raceSettled (Promise_race (linkFound st) (timer findTimeout)) st).

(** [await browser.close()]: the listeners stay installed, and the page
    keeps delivering events until the browser is gone, [closing env]
    after the call. *)
Definition await_close (env : engine) : M unit :=
  started <- gets raceSettled ;;
  let gone := (match started with Some s => s | None => 0 end + closing env)%N in
  run_until (fun _ t => (gone <=? t)%N) ;;
  await BrowserClose (close env).

(** ** The search, lines 11-159 *)

Definition try_block (env : engine) (url : jsval) : M unit :=
  console_log Log "Launching browser..." ;;
  await PuppeteerLaunch (launch env) ;;
  modify (set_browser true) ;;
  await BrowserNewPage (newPage env) ;;
  modify (set_page true) ;;
  await PageSetUserAgent (setUserAgent env) ;;
  console_log Log "Setting up network request interception..." ;;
  await (PageSetRequestInterception true) (enableInterception env) ;;
  (* page.on("request", ...) installs onRequest *)
  console_log Log
    ("Navigating to " ++ toString url
       ++ "... (will stop once .m3u8 is found or after timeout)") ;;
  (* page.goto(url, ...).catch(...) is not awaited *)
  modify (note (Navigating (toString url))) ;;
  modify (set_inbox (stamp 0 (trace env))) ;;
  (* findTimeout / 1000 is exact: the constant is a multiple of 1000 *)
  console_log Log
    ("Waiting up to " ++ decimal (findTimeout / 1000)
       ++ " seconds for the M3U8 link...") ;;
  await_race.

(** [catch (error)], lines 134-139.  Only a call of the setup can throw
    inside the [try] block, so [error] is the text such an error converts
    to in the template literal. *)
Definition catch_block (error : string) : M unit :=
  link <- gets m3u8Link ;;
  if negb (truthy link)
  then console_log Error
         ("An error occurred during setup or navigation: " ++ error)
  else ret tt.

Definition finally_block (env : engine) : M unit :=
  b <- gets browser ;;
  if b then
    console_log Log "Closing browser (finally block)..." ;;
    await_close env ;;
    modify (set_browser false) ;;
    modify (set_page false)
  else ret tt.

(** Final result report, lines 150-158. *)
Definition report : M jsval :=
  link <- gets m3u8Link ;;
  (if truthy link
   then console_log Log
          (LF ++ "✅ Successfully extracted M3U8 Link:" ++ LF
              ++ toString link ++ LF)
   else console_log Log
          (LF ++ "❌ M3U8 link not detected within "
              ++ decimal (findTimeout / 1000) ++ " seconds.")) ;;
  ret link.

Definition findMinimalM3u8Link (env : engine) (url : jsval) : M jsval :=
  if negb (truthy url) then
    console_log Error "Error: URL is required." ;;
    ret JNull
  else
    console_log Log ("Attempting to scrape: " ++ toString url) ;;
    try_catch_finally (try_block env url) catch_block (finally_block env) ;;
    report.

(** One call, from the initial values of its local variables. *)
Definition search (env : engine) (url : jsval) : (jsval + string) * state :=
  findMinimalM3u8Link env url fresh.

(** ** The route handler, lines 7-166 *)

(** Either a response was sent, or the handler rejected before [res.send]
    was reached. *)
Inductive reply : Type :=
| Sent (status : N) (body : list (string * jsval))
| NotSent (rejection : string).

(** [JSON.stringify] of an object leaves out the properties whose value is
    [undefined]. *)
Definition JSON_object (fields : list (string * jsval)) : list (string * jsval) :=
  filter (fun kv => match snd kv with JUndefined => false | _ => true end) fields.

Definition res_send (fields : list (string * jsval)) : reply :=
  Sent 200 (JSON_object fields).

Definition scrape (env : engine) : reply :=
  match search env (JString targetUrl) with
  | (inl link, _) => res_send [("link", link)]
  | (inr e, _) => NotSent e
  end.

(** ** Reading the record of a call *)

(** The requests the listener was entered for, with their times. *)
Definition observed (h : list action) : list (N * request) :=
  flat_map (fun a => match a with Observed t r => [(t, r)] | _ => [] end) h.

(** The values assigned to [m3u8Link] after its initialisation. *)
Definition assignments (h : list action) : list string :=
  flat_map (fun a => match a with Assigned u => [u] | _ => [] end) h.

(** Rejections of a listener that nothing caught. *)
Definition escaped (h : list action) : list string :=
  flat_map (fun a => match a with Escaped e => [e] | _ => [] end) h.

Definition is_decision (a : action) : bool :=
  match a with
  | Called (RequestAbort _) _ | Called (RequestContinue _) _ => true
  | _ => false
  end.

Definition is_continue (a : action) : bool :=
  match a with
  | Called (RequestContinue _) _ => true
  | _ => false
  end.

(** The calls of [request.abort()] and [request.continue()]. *)
Definition decisions (h : list action) : list action := filter is_decision h.

(** What was recorded after the first assignment to [m3u8Link]. *)
Fixpoint after_capture (h : list action) : list action :=
  match h with
  | [] => []
  | Assigned _ :: h' => h'
  | _ :: h' => after_capture h'
  end.

Definition is_manifest (o : N * request) : bool := qualifies (url (snd o)).

(** The first observed request whose URL qualifies. *)
Definition first_manifest (obs : list (N * request)) : option (N * request) :=
  find is_manifest obs.

Definition link_of (o : option (N * request)) : jsval :=
  match o with
  | Some (_, r) => JString (url r)
  | None => JNull
  end.

Definition unresolved (o : N * request) : bool :=
  negb (isInterceptResolutionHandled (snd o)).

(** The time of the first qualifying request among the events a page
    delivers. *)
Fixpoint first_manifest_time (q : list (N * event)) : promise :=
  match q with
  | [] => None
  | (t, Request r) :: q' =>
      if qualifies (url r) then Some t else first_manifest_time q'
  | (_, GotoRejected _) :: q' => first_manifest_time q'
  end.

Definition is_ok (res : result) : bool :=
  match res with Ok => true | Throws _ => false end.

Definition setup_ok (env : engine) : bool :=
  is_ok (launch env) && is_ok (newPage env) && is_ok (setUserAgent env)
  && is_ok (enableInterception env).

(** The outcome of a call that returns [v] unless [browser.close()]
    rejects. *)
Definition returns_unless_close_rejects
    (env : engine) (out : jsval + string) (v : jsval) : Prop :=
  match out with
  | inl x => x = v
  | inr e => close env = Throws e
  end.

(** A value the [link] field may take: [null] or a string that ends with
    the suffix. *)
Definition link_shape (v : jsval) : Prop :=
  v = JNull \/ exists u, v = JString u /\ ends_with_suffix u.

(** ** The effect of one listener, as a function of what it reads *)

Definition abort_attempt (r : request) : list action :=
  if isInterceptResolutionHandled r then [] else [Called (RequestAbort r) (abort r)].

Definition continue_attempt (r : request) : list action :=
  if isInterceptResolutionHandled r then [] else [Called (RequestContinue r) (continue r)].

Definition disable_attempt (currentPage : bool) (r : request) : list action :=
  if currentPage && negb (isClosed r)
  then [Called (PageSetRequestInterception false) (disableInterception r)]
  else [].

Definition captures (e : event) (link : jsval) : bool :=
  match e with
  | Request r => qualifies (url r) && negb (truthy link)
  | GotoRejected _ => false
  end.

Definition effects (t : N) (e : event) (currentPage : bool) (link : jsval)
  : list action :=
  match e with
  | GotoRejected _ => []
  | Request r =>
      Observed t r ::
      (if qualifies (url r) && negb (truthy link)
       then Assigned (url r) :: disable_attempt currentPage r ++ abort_attempt r
       else if negb (truthy link) then continue_attempt r else abort_attempt r)
  end.

Definition next_link (e : event) (link : jsval) : jsval :=
  match e with
  | Request r => if captures e link then JString (url r) else link
  | GotoRejected _ => link
  end.

Definition next_found (t : N) (e : event) (link : jsval) (found : promise) : promise :=
  if captures e link
  then match found with Some s => Some s | None => Some t end
  else found.

(** Two states that differ at most in the console and in the events still
    to be delivered. *)
Definition same_search (a b : state) : Prop :=
  browser a = browser b /\ page a = page b /\ m3u8Link a = m3u8Link b
  /\ linkFound a = linkFound b /\ raceSettled a = raceSettled b
  /\ history a = history b.

(** ** Traces without navigation failures *)

Definition is_request (te : N * event) : bool :=
  match snd te with Request _ => true | GotoRejected _ => false end.

(** Remove the rejections of [page.goto] from a trace; the requests keep
    their times. *)
Fixpoint without_rejections (carry : N) (tr : list timed) : list timed :=
  match tr with
  | [] => []
  | e :: tr' =>
      match what e with
      | Request r =>
          {| delay := carry + delay e; what := Request r |}
            :: without_rejections 0 tr'
      | GotoRejected _ => without_rejections (carry + delay e) tr'
      end
  end%N.

Definition calm_navigation (env : engine) : engine :=
  {| launch := launch env; newPage := newPage env;
     setUserAgent := setUserAgent env;
     enableInterception := enableInterception env;
     trace := without_rejections 0 (trace env);
     closing := closing env; close := close env |}.

(** ** The search once the wait begins *)

(** The state in which [await Promise.race(...)] is reached: every call of
    the setup resolved, the listeners are installed, navigation has
    started. *)
Definition ready (env : engine) (url : jsval) : state :=
  {| browser := true; page := true; m3u8Link := JNull; linkFound := None;
     raceSettled := None; inbox := stamp 0 (trace env);
     console :=
       [(Log, ("Attempting to scrape: " ++ toString url)%string);
        (Log, "Launching browser...");
        (Log, "Setting up network request interception...");
        (Log, ("Navigating to " ++ toString url
                 ++ "... (will stop once .m3u8 is found or after timeout)")%string);
        (Log, ("Waiting up to " ++ decimal (findTimeout / 1000)
                 ++ " seconds for the M3U8 link...")%string)];
     history :=
       [Called PuppeteerLaunch Ok; Called BrowserNewPage Ok;
        Called PageSetUserAgent Ok;
        Called (PageSetRequestInterception true) Ok;
        Navigating (toString url)] |}.

(** What follows the [try] and [catch] blocks: the [finally] block, then
    the report. *)
Definition conclude (env : engine) : M jsval :=
  fun st =>
    match finally_block env st with
    | (inl _, st') => report st'
    | (inr e, st') => (inr e, st')
    end.

(** The state in which the [finally] block is entered when the setup fails
    at its first rejecting call. *)
Definition setup_failed (env : engine) (url : jsval) : state :=
  let start := print Log "Launching browser..."
                 (print Log ("Attempting to scrape: " ++ toString url) fresh) in
  let oops (e : string) :=
    print Error ("An error occurred during setup or navigation: " ++ e) in
  match launch env with
  | Throws e => oops e (note (Called PuppeteerLaunch (Throws e)) start)
  | Ok =>
    let launched := set_browser true (note (Called PuppeteerLaunch Ok) start) in
    match newPage env with
    | Throws e => oops e (note (Called BrowserNewPage (Throws e)) launched)
    | Ok =>
      let opened := set_page true (note (Called BrowserNewPage Ok) launched) in
      match setUserAgent env with
      | Throws e => oops e (note (Called PageSetUserAgent (Throws e)) opened)
      | Ok =>
        let named :=
          print Log "Setting up network request interception..."
            (note (Called PageSetUserAgent Ok) opened) in
        match enableInterception env with
        | Throws e =>
            oops e (note (Called (PageSetRequestInterception true) (Throws e)) named)
        | Ok => named
        end
      end
    end
  end.

(** ** What holds of every state of a search *)

Record search_invariant (st : state) : Prop := {
  inv_link :
    m3u8Link st = link_of (first_manifest (observed (history st)));
  inv_assigned :
    assignments (history st) =
      match first_manifest (observed (history st)) with
      | Some (_, r) => [url r]
      | None => []
      end;
  inv_found :
    linkFound st = option_map fst (first_manifest (observed (history st)));
  inv_sorted :
    StronglySorted N.le
      (map fst (observed (history st)) ++ map fst (inbox st));
  inv_no_continue :
    Forall (fun a => is_continue a = false) (after_capture (history st));
  inv_aborts :
    forall t r,
      In (Observed t r) (after_capture (history st)) ->
      isInterceptResolutionHandled r = false ->
      In (Called (RequestAbort r) (abort r)) (after_capture (history st));
  inv_escaped : escaped (history st) = [];
  inv_once :
    length (decisions (history st)) =
    length (filter unresolved (observed (history st)))
}.

(** ** Sample sessions *)

Definition plain (u : string) : request :=
  {| url := u; isInterceptResolutionHandled := false; abort := Ok;
     continue := Ok; isClosed := false; disableInterception := Ok |}.

Definition after (d : N) (e : event) : timed := {| delay := d; what := e |}.

(** An engine whose calls all resolve; the browser takes 200 ms to close. *)
Definition calm (tr : list timed) : engine :=
  {| launch := Ok; newPage := Ok; setUserAgent := Ok; enableInterception := Ok;
     trace := tr; closing := 200; close := Ok |}.

(** Scenario 3 of the specification: two manifest requests 50 ms apart. *)
Definition two_manifests : engine :=
  calm [after 100 (Request (plain "https://cdn.example/app.js"));
        after 400 (Request (plain "https://cdn.example/a.m3u8"));
        after 50 (Request (plain "https://cdn.example/b.m3u8"))].

(** A request that arrives once interception has been switched off: the
    engine refuses to abort it. *)
Definition not_intercepted (u : string) : request :=
  {| url := u; isInterceptResolutionHandled := false;
     abort := Throws "Request Interception is not enabled!";
     continue := Throws "Request Interception is not enabled!";
     isClosed := false; disableInterception := Ok |}.

Definition segment_after_capture : engine :=
  calm [after 500 (Request (plain "https://cdn.example/a.m3u8"));
        after 20 (Request (not_intercepted "https://cdn.example/seg1.ts"))].

(** The manifest request arrives 1 ms after the deadline, while the
    browser is closing. *)
Definition late_manifest : engine :=
  calm [after 300 (Request (plain "https://cdn.example/app.js"));
        after 9701 (Request (plain "https://cdn.example/live.m3u8"))].

(** The link is captured, then [browser.close()] rejects. *)
Definition close_rejects : engine :=
  {| launch := Ok; newPage := Ok; setUserAgent := Ok; enableInterception := Ok;
     trace := [after 500 (Request (plain "https://cdn.example/a.m3u8"))];
     closing := 200;
     close := Throws "Protocol error (Browser.close): Target closed." |}.

(** Scenario 4 of the specification: navigation rejects after the capture,
    while the browser is closing. *)
Definition navigation_rejects_after_capture : engine :=
  calm [after 500 (Request (plain "https://cdn.example/a.m3u8"));
        after 100 (GotoRejected "Navigating frame was detached")].

(** ** Further readings of the record *)

Definition is_close (a : action) : bool :=
  match a with Called BrowserClose _ => true | _ => false end.

Definition is_abort (a : action) : bool :=
  match a with Called (RequestAbort _) _ => true | _ => false end.

(** [setRequestInterception(false)], line 66. *)
Definition is_disable (a : action) : bool :=
  match a with
  | Called (PageSetRequestInterception false) _ => true
  | _ => false
  end.

(** The steps of lines 32-47 and the start of the navigation. *)
Definition is_setup (a : action) : bool :=
  match a with
  | Called PuppeteerLaunch _ | Called BrowserNewPage _
  | Called PageSetUserAgent _ | Called (PageSetRequestInterception true) _
  | Navigating _ => true
  | _ => false
  end.

(** The setup as a script: each call is made only if every call before it
    resolved, and navigation starts only if all four did. *)
Definition setup_script (env : engine) (target : jsval) : list action :=
  Called PuppeteerLaunch (launch env) ::
  match launch env with
  | Throws _ => []
  | Ok =>
    Called BrowserNewPage (newPage env) ::
    match newPage env with
    | Throws _ => []
    | Ok =>
      Called PageSetUserAgent (setUserAgent env) ::
      match setUserAgent env with
      | Throws _ => []
      | Ok =>
        Called (PageSetRequestInterception true) (enableInterception env) ::
        match enableInterception env with
        | Throws _ => []
        | Ok => [Navigating (toString target)]
        end
      end
    end
  end.

(** A line printed with [console.error]. *)
Definition is_error_line (line : level * string) : bool :=
  match fst line with Error => true | _ => false end.

(** What the search can read of an event: when it comes, and the URL of a
    request.  The answers of the engine to the calls of the listener are
    left out. *)
Definition shape (e : event) : option string :=
  match e with
  | Request r => Some (url r)
  | GotoRejected _ => None
  end.

Definition timed_shape (te : timed) : N * option string :=
  (delay te, shape (what te)).

(** Two engines that differ at most in how they answer the calls made
    inside the listeners. *)
Definition same_traffic (e1 e2 : engine) : Prop :=
  launch e1 = launch e2 /\ newPage e1 = newPage e2
  /\ setUserAgent e1 = setUserAgent e2
  /\ enableInterception e1 = enableInterception e2
  /\ closing e1 = closing e2 /\ close e1 = close e2
  /\ map timed_shape (trace e1) = map timed_shape (trace e2).

(** Two states with the same values of the variables of the search. *)
Definition same_variables (a b : state) : Prop :=
  browser a = browser b /\ page a = page b /\ m3u8Link a = m3u8Link b
  /\ linkFound a = linkFound b /\ raceSettled a = raceSettled b.

(** The line printed by the final report. *)
Definition report_line (link : jsval) : level * string :=
  (Log,
   if truthy link
   then (LF ++ "✅ Successfully extracted M3U8 Link:" ++ LF
            ++ toString link ++ LF)%string
   else (LF ++ "❌ M3U8 link not detected within "
            ++ decimal (findTimeout / 1000) ++ " seconds.")%string).

(** When the wait ends, read off the events the page delivers: at the
    first qualifying request or at the deadline, whichever comes first. *)
Definition race_end (q : list (N * event)) : N :=
  match first_manifest_time q with
  | Some t => N.min t findTimeout
  | None => findTimeout
  end.

(** The two warnings the search can print: a navigation that failed before
    any capture (line 113), and interception that could not be switched
    off after the capture (line 69). *)
Definition known_warning (m : string) : Prop :=
  (exists e,
      m = ("Navigation potentially failed before M3U8 link found: " ++ e)%string)
  \/ (exists e,
         m = ("Warning: Could not disable request interception during cleanup. "
                ++ e)%string).

(** A console line that is not an error: a plain line, or one of the two
    warnings. *)
Definition quiet (line : level * string) : Prop :=
  fst line = Log \/ (fst line = Warn /\ known_warning (snd line)).

(** A request the engine answers badly at every turn: the page claims to
    be open, switching interception off throws, and so do [abort()] and
    [continue()]. *)
Definition hostile (u : string) : request :=
  {| url := u; isInterceptResolutionHandled := false;
     abort := Throws "Request is already handled!";
     continue := Throws "Request is already handled!";
     isClosed := false;
     disableInterception := Throws "Protocol error: Target closed." |}.

Definition hostile_manifests : engine :=
  calm [after 100 (Request (hostile "https://cdn.example/app.js"));
        after 400 (Request (hostile "https://cdn.example/a.m3u8"));
        after 50 (Request (hostile "https://cdn.example/b.m3u8"))].

(** The page cannot be opened. *)
Definition no_page : engine :=
  {| launch := Ok; newPage := Throws "ProtocolError: Target.createTarget failed";
     setUserAgent := Ok; enableInterception := Ok;
     trace := [after 10 (Request (plain "https://cdn.example/a.m3u8"))];
     closing := 200; close := Ok |}.

(** A page that issues no manifest request. *)
Definition no_manifest : engine :=
  calm [after 100 (Request (plain "https://cdn.example/app.js"));
        after 30 (Request (plain "https://cdn.example/style.css"))].

Section StringFacts.

Lemma length_append (a b : string) :
  String.length (a ++ b)%string = String.length a + String.length b.
Proof. induction a as [|c a IH]; simpl; [reflexivity | now rewrite IH]. Qed.

Lemma substring_all (s : string) : substring 0 (String.length s) s = s.
Proof. induction s as [|c s IH]; simpl; [reflexivity | now rewrite IH]. Qed.

Lemma substring_skip_prefix (p s : string) (m : nat) :
  substring (String.length p) m (p ++ s)%string = substring 0 m s.
Proof. induction p as [|c p IH]; simpl; [reflexivity | exact IH]. Qed.

Lemma substring_split (s : string) (n : nat) :
  n <= String.length s ->
  s = (substring 0 n s ++ substring n (String.length s - n) s)%string.
Proof.
  revert n; induction s as [|c s IH]; intros [|n] Hn; simpl in *.
  - reflexivity.
  - lia.
  - now rewrite substring_all.
  - f_equal. apply IH. lia.
Qed.


End StringFacts.

Lemma endsWith_append (p x : string) : endsWith (p ++ x)%string x = true.
Proof.
  unfold endsWith. rewrite length_append.
  destruct (Nat.ltb_spec (String.length p + String.length x) (String.length x)) as [H|H];
    [lia|].
  replace (String.length p + String.length x - String.length x)
    with (String.length p) by lia.
  rewrite substring_skip_prefix, substring_all. apply String.eqb_refl.
Qed.

Lemma endsWith_inv (s x : string) :
  endsWith s x = true -> exists p, s = (p ++ x)%string.
Proof.
  unfold endsWith.
  destruct (Nat.ltb_spec (String.length s) (String.length x)) as [H|H];
    [discriminate|].
  intros E. apply String.eqb_eq in E.
  exists (substring 0 (String.length s - String.length x) s).
  rewrite (substring_split s (String.length s - String.length x)) at 1 by lia.
  f_equal.
  replace (String.length s - (String.length s - String.length x))
    with (String.length x) by lia.
  exact E.
Qed.

Lemma qualifies_iff (u : string) : qualifies u = true <-> ends_with_suffix u.
Proof.
  split.
  - apply endsWith_inv.
  - intros [p ->]. apply endsWith_append.
Qed.

Lemma qualifies_nonempty (u : string) : qualifies u = true -> truthy (JString u) = true.
Proof.
  intros H. apply endsWith_inv in H as [p ->]. simpl.
  destruct p; reflexivity.
Qed.


(** ** One listener *)

Ltac unfold_monad :=
  cbv beta iota delta
    [bind gets modify console_log try_catch try_catch_finally await ret].

Ltac split_request r :=
  destruct (isInterceptResolutionHandled r), (abort r), (continue r),
    (isClosed r), (disableInterception r).

Section Listener.

Variables (t : N) (st : state).

Lemma onRequest_summary (r : request) :
  let st' := snd (onRequest t r st) in
  fst (onRequest t r st) = inl tt
  /\ history st' = history st ++ effects t (Request r) (page st) (m3u8Link st)
  /\ m3u8Link st' = next_link (Request r) (m3u8Link st)
  /\ linkFound st' = next_found t (Request r) (m3u8Link st) (linkFound st)
  /\ browser st' = browser st /\ page st' = page st
  /\ raceSettled st' = raceSettled st /\ inbox st' = inbox st.
Proof.
  unfold onRequest, effects, next_link, next_found, captures,
    abort_attempt, continue_attempt, disable_attempt.
  unfold_monad.
  change (endsWith (url r) ".m3u8") with (qualifies (url r)).
  destruct st as [b p link found settled q c h].
  cbn [fst snd page m3u8Link linkFound browser raceSettled inbox history
       console note assign print resolveLinkFound].
  destruct (qualifies (url r)), (truthy link) eqn:E;
    cbn [andb negb fst snd page m3u8Link linkFound browser raceSettled inbox
         history console note assign print resolveLinkFound];
    rewrite ?E; cbn [negb andb];
    repeat (match goal with
            | |- context [isInterceptResolutionHandled r] =>
                destruct (isInterceptResolutionHandled r)
            | |- context [isClosed r] => destruct (isClosed r)
            | |- context [if p && _ then _ else _] => destruct p
            | |- context [match ?x with Ok => _ | Throws _ => _ end] =>
                destruct x
            end;
            cbn [andb negb fst snd page m3u8Link linkFound browser
                 raceSettled inbox history console note assign print
                 resolveLinkFound app]);
    rewrite <- ?app_assoc; repeat split; reflexivity.
Qed.

Lemma onGotoRejected_summary (message : string) :
  onGotoRejected message st =
    (inl tt,
     print (if truthy (m3u8Link st) then Log else Warn)
           (if truthy (m3u8Link st)
            then "Navigation ended (or timed out), but M3U8 link was already found."
            else "Navigation potentially failed before M3U8 link found: " ++ message)
           st).
Proof.
  unfold onGotoRejected. unfold_monad.
  destruct (truthy (m3u8Link st)); reflexivity.
Qed.

Lemma listener_returns (e : event) : fst (listener t e st) = inl tt.
Proof.
  destruct e as [r|m]; simpl.
  - apply onRequest_summary.
  - now rewrite onGotoRejected_summary.
Qed.

Lemma dispatch_listener (e : event) : dispatch t e st = snd (listener t e st).
Proof.
  unfold dispatch. pose proof (listener_returns e) as H.
  destruct (listener t e st) as [[[]|err] st']; simpl in *; congruence.
Qed.

Lemma dispatch_history (e : event) :
  history (dispatch t e st) = history st ++ effects t e (page st) (m3u8Link st).
Proof.
  rewrite dispatch_listener. destruct e as [r|m]; simpl.
  - apply onRequest_summary.
  - rewrite onGotoRejected_summary. simpl. now rewrite app_nil_r.
Qed.

Lemma dispatch_link (e : event) :
  m3u8Link (dispatch t e st) = next_link e (m3u8Link st).
Proof.
  rewrite dispatch_listener. destruct e as [r|m]; simpl.
  - apply onRequest_summary.
  - now rewrite onGotoRejected_summary.
Qed.

Lemma dispatch_found (e : event) :
  linkFound (dispatch t e st) = next_found t e (m3u8Link st) (linkFound st).
Proof.
  rewrite dispatch_listener. destruct e as [r|m]; simpl.
  - apply onRequest_summary.
  - now rewrite onGotoRejected_summary.
Qed.

Lemma dispatch_frame (e : event) :
  browser (dispatch t e st) = browser st /\ page (dispatch t e st) = page st
  /\ raceSettled (dispatch t e st) = raceSettled st
  /\ inbox (dispatch t e st) = inbox st.
Proof.
  rewrite dispatch_listener. destruct e as [r|m]; simpl.
  - pose proof (onRequest_summary r) as H. simpl in H. tauto.
  - rewrite onGotoRejected_summary. simpl. tauto.
Qed.

End Listener.

(** ** Reading the record: lemmas *)

Section Record_facts.

Lemma observed_app (h l : list action) :
  observed (h ++ l) = observed h ++ observed l.
Proof. apply flat_map_app. Qed.

Lemma assignments_app (h l : list action) :
  assignments (h ++ l) = assignments h ++ assignments l.
Proof. apply flat_map_app. Qed.

Lemma escaped_app (h l : list action) :
  escaped (h ++ l) = escaped h ++ escaped l.
Proof. apply flat_map_app. Qed.

Lemma decisions_app (h l : list action) :
  decisions (h ++ l) = decisions h ++ decisions l.
Proof. apply filter_app. Qed.

Lemma after_capture_app (h l : list action) :
  after_capture (h ++ l) =
    match assignments h with
    | [] => after_capture l
    | _ :: _ => after_capture h ++ l
    end.
Proof.
  induction h as [|a h IH]; [reflexivity|].
  destruct a; simpl; try exact IH. reflexivity.
Qed.

Lemma first_manifest_app (obs l : list (N * request)) :
  first_manifest (obs ++ l) =
    match first_manifest obs with
    | Some o => Some o
    | None => first_manifest l
    end.
Proof.
  unfold first_manifest. induction obs as [|o obs IH]; [reflexivity|].
  simpl. destruct (is_manifest o); [reflexivity | exact IH].
Qed.

Lemma first_manifest_qualifies (obs : list (N * request)) (t : N) (r : request) :
  first_manifest obs = Some (t, r) -> qualifies (url r) = true.
Proof. intros H. apply find_some in H. apply H. Qed.

Lemma first_manifest_truthy (obs : list (N * request)) :
  truthy (link_of (first_manifest obs)) =
    match first_manifest obs with Some _ => true | None => false end.
Proof.
  destruct (first_manifest obs) as [[t r]|] eqn:E; [|reflexivity].
  apply qualifies_nonempty. eapply first_manifest_qualifies; eassumption.
Qed.

Lemma sorted_remove (l1 l2 : list N) (x : N) :
  StronglySorted N.le (l1 ++ x :: l2) -> StronglySorted N.le (l1 ++ l2).
Proof.
  induction l1 as [|a l1 IH]; simpl; intros H.
  - now inversion H.
  - inversion H as [|? ? Hs Hall]; subst. constructor.
    + now apply IH.
    + apply Forall_app in Hall as [H1 H2]. apply Forall_app. split; [exact H1|].
      now inversion H2.
Qed.

End Record_facts.

Section Effects_facts.

Variables (t : N) (r : request) (currentPage : bool) (link : jsval).

Let eff := effects t (Request r) currentPage link.

Lemma observed_effects : observed eff = [(t, r)].
Proof.
  unfold eff, effects, abort_attempt, continue_attempt, disable_attempt.
  destruct (qualifies (url r)), (truthy link),
    (isInterceptResolutionHandled r), (currentPage && negb (isClosed r));
    reflexivity.
Qed.

Lemma assignments_effects :
  assignments eff = if captures (Request r) link then [url r] else [].
Proof.
  unfold eff, effects, captures, abort_attempt, continue_attempt, disable_attempt.
  destruct (qualifies (url r)), (truthy link),
    (isInterceptResolutionHandled r), (currentPage && negb (isClosed r));
    reflexivity.
Qed.

Lemma escaped_effects : escaped eff = [].
Proof.
  unfold eff, effects, abort_attempt, continue_attempt, disable_attempt.
  destruct (qualifies (url r)), (truthy link),
    (isInterceptResolutionHandled r), (currentPage && negb (isClosed r));
    reflexivity.
Qed.

Lemma decisions_effects :
  decisions eff =
    if isInterceptResolutionHandled r then []
    else if qualifies (url r) && negb (truthy link)
         then [Called (RequestAbort r) (abort r)]
         else if negb (truthy link)
              then [Called (RequestContinue r) (continue r)]
              else [Called (RequestAbort r) (abort r)].
Proof.
  unfold eff, effects, abort_attempt, continue_attempt, disable_attempt.
  destruct (qualifies (url r)), (truthy link),
    (isInterceptResolutionHandled r), (currentPage && negb (isClosed r));
    reflexivity.
Qed.

Lemma effects_blocked :
  truthy link = true -> eff = Observed t r :: abort_attempt r.
Proof.
  intros H. unfold eff, effects. rewrite H. simpl.
  now rewrite andb_false_r.
Qed.

Lemma effects_passed :
  truthy link = false -> qualifies (url r) = false ->
  eff = Observed t r :: continue_attempt r.
Proof. intros H Q. unfold eff, effects. now rewrite H, Q. Qed.

Lemma effects_captured :
  truthy link = false -> qualifies (url r) = true ->
  eff = Observed t r :: Assigned (url r)
          :: disable_attempt currentPage r ++ abort_attempt r.
Proof. intros H Q. unfold eff, effects. now rewrite H, Q. Qed.

End Effects_facts.

(** ** The invariant is kept by every listener and by the event loop *)

Section Invariant.

Lemma nothing_after_no_capture (l : list action) :
  assignments l = [] -> after_capture l = [].
Proof.
  induction l as [|a l IH]; [reflexivity|].
  destruct a; simpl; try exact IH. discriminate.
Qed.

Lemma abort_attempt_not_continue (r : request) :
  Forall (fun a => is_continue a = false) (abort_attempt r).
Proof.
  unfold abort_attempt. destruct (isInterceptResolutionHandled r); repeat constructor.
Qed.

Lemma disable_attempt_not_continue (p : bool) (r : request) :
  Forall (fun a => is_continue a = false) (disable_attempt p r).
Proof.
  unfold disable_attempt. destruct (p && negb (isClosed r)); repeat constructor.
Qed.

Lemma no_request_in_attempts (p : bool) (r r' : request) (t : N) :
  ~ In (Observed t r') (disable_attempt p r ++ abort_attempt r).
Proof.
  unfold disable_attempt, abort_attempt.
  destruct (p && negb (isClosed r)), (isInterceptResolutionHandled r);
    simpl; intuition discriminate.
Qed.

Lemma dispatch_invariant (t : N) (e : event) (q : list (N * event)) (st : state) :
  search_invariant (set_inbox ((t, e) :: q) st) ->
  search_invariant (set_inbox q (dispatch t e st)).
Proof.
  intros [Hl Ha Hf Hs Hn Hab He Ho]. simpl in *.
  destruct e as [r|m].
  2:{ constructor; simpl;
        rewrite ?dispatch_history, ?dispatch_link, ?dispatch_found;
        simpl; rewrite ?app_nil_r; auto.
      eapply sorted_remove; eassumption. }
  pose proof (first_manifest_truthy (observed (history st))) as Ht.
  rewrite <- Hl in Ht.
  pose proof (observed_effects t r (page st) (m3u8Link st)) as Eo.
  pose proof (assignments_effects t r (page st) (m3u8Link st)) as Ea.
  pose proof (escaped_effects t r (page st) (m3u8Link st)) as Ee.
  pose proof (decisions_effects t r (page st) (m3u8Link st)) as Ed.
  assert (Hsorted : StronglySorted N.le
            (map fst (observed (history st) ++ [(t, r)]) ++ map fst q)).
  { rewrite map_app, <- app_assoc. exact Hs. }
  assert (Honce : length (decisions (history st)
                            ++ decisions (effects t (Request r) (page st) (m3u8Link st)))
                = length (filter unresolved (observed (history st) ++ [(t, r)]))).
  { rewrite filter_app, !length_app, Ho, Ed. f_equal.
    unfold unresolved at 1. simpl.
    destruct (isInterceptResolutionHandled r); [reflexivity|].
    destruct (qualifies (url r) && negb (truthy (m3u8Link st)));
      [reflexivity|]. destruct (negb (truthy (m3u8Link st))); reflexivity. }
  destruct (first_manifest (observed (history st))) as [[t0 r0]|] eqn:E.
  - (* a link was captured before: this request is blocked *)
    pose proof (effects_blocked t r (page st) (m3u8Link st) Ht) as Eb.
    assert (C : captures (Request r) (m3u8Link st) = false).
    { simpl. rewrite Ht. apply andb_false_r. }
    constructor; simpl;
      rewrite ?dispatch_history, ?dispatch_link, ?dispatch_found,
        ?observed_app, ?assignments_app, ?escaped_app, ?decisions_app,
        ?first_manifest_app, ?Eo, ?Ea, ?Ee, ?E;
      unfold next_found, next_link; rewrite ?C, ?app_nil_r; auto.
    + rewrite after_capture_app, Ha, Eb. apply Forall_app. split; [exact Hn|].
      constructor; [reflexivity | apply abort_attempt_not_continue].
    + intros t' r'. rewrite after_capture_app, Ha, Eb.
      intros Hin Hr. apply in_app_iff. apply in_app_iff in Hin as [Hin|Hin].
      * left. now apply (Hab t').
      * right. destruct Hin as [Hin|Hin].
        -- injection Hin as <- <-. right. unfold abort_attempt.
           rewrite Hr. now left.
        -- exfalso. unfold abort_attempt in Hin.
           destruct (isInterceptResolutionHandled r); simpl in Hin;
             intuition discriminate.
  - (* no link yet *)
    destruct (qualifies (url r)) eqn:Q.
    + pose proof (effects_captured t r (page st) (m3u8Link st) Ht Q) as Ec.
      assert (C : captures (Request r) (m3u8Link st) = true).
      { simpl. now rewrite Ht, Q. }
      assert (F : first_manifest [(t, r)] = Some (t, r)).
      { unfold first_manifest, is_manifest. simpl. now rewrite Q. }
      constructor; simpl;
        rewrite ?dispatch_history, ?dispatch_link, ?dispatch_found,
          ?observed_app, ?assignments_app, ?escaped_app, ?decisions_app,
          ?first_manifest_app, ?Eo, ?Ea, ?Ee, ?E, ?F;
        unfold next_found, next_link; rewrite ?C, ?Ha, ?Hf, ?He; auto.
      * rewrite after_capture_app, Ha, Ec. simpl. apply Forall_app. split.
        -- apply disable_attempt_not_continue.
        -- apply abort_attempt_not_continue.
      * intros t' r'. rewrite after_capture_app, Ha, Ec. simpl.
        intros Hin. exfalso. eapply no_request_in_attempts; eassumption.
    + pose proof (effects_passed t r (page st) (m3u8Link st) Ht Q) as Ep.
      assert (C : captures (Request r) (m3u8Link st) = false).
      { simpl. now rewrite Q. }
      assert (F : first_manifest [(t, r)] = None).
      { unfold first_manifest, is_manifest. simpl. now rewrite Q. }
      assert (A : after_capture (effects t (Request r) (page st) (m3u8Link st)) = []).
      { apply nothing_after_no_capture. now rewrite Ea, C. }
      constructor; simpl;
        rewrite ?dispatch_history, ?dispatch_link, ?dispatch_found,
          ?observed_app, ?assignments_app, ?escaped_app, ?decisions_app,
          ?first_manifest_app, ?Eo, ?Ea, ?Ee, ?E, ?F;
        unfold next_found, next_link; rewrite ?C, ?Ha, ?Hf, ?He; auto.
      * rewrite after_capture_app, Ha, A. constructor.
      * intros t' r'. rewrite after_capture_app, Ha, A. intros [].
Qed.

End Invariant.

(** ** The event loop *)

Section Event_loop.

Variable stop : state -> N -> bool.

Lemma set_inbox_same (st : state) : set_inbox (inbox st) st = st.
Proof. now destruct st. Qed.

Lemma pump_invariant (q : list (N * event)) (st : state) :
  search_invariant (set_inbox q st) ->
  search_invariant (set_inbox (fst (pump stop q st)) (snd (pump stop q st))).
Proof.
  revert st; induction q as [|[t e] q IH]; intros st H; simpl.
  - exact H.
  - destruct (stop st t); simpl; [exact H|].
    apply IH. now apply dispatch_invariant.
Qed.

Lemma run_until_state (st : state) :
  run_until stop st =
    (inl tt, set_inbox (fst (pump stop (inbox st) st))
               (snd (pump stop (inbox st) st))).
Proof. unfold run_until. now destruct (pump stop (inbox st) st). Qed.

Lemma run_until_invariant (st : state) :
  search_invariant st -> search_invariant (snd (run_until stop st)).
Proof.
  intros H. rewrite run_until_state. simpl.
  apply pump_invariant. now rewrite set_inbox_same.
Qed.

Lemma pump_frame (q : list (N * event)) (st : state) :
  let st' := snd (pump stop q st) in
  browser st' = browser st /\ page st' = page st
  /\ raceSettled st' = raceSettled st
  /\ exists l, history st' = history st ++ l.
Proof.
  revert st; induction q as [|[t e] q IH]; intros st; simpl.
  - repeat split; trivial. exists []. now rewrite app_nil_r.
  - destruct (stop st t); simpl.
    + repeat split; trivial. exists []. now rewrite app_nil_r.
    + destruct (IH (dispatch t e st)) as (Hb & Hp & Hr & l & Hh).
      destruct (dispatch_frame t st e) as (Fb & Fp & Fr & _).
      rewrite Hb, Hp, Hr, Hh, dispatch_history, <- app_assoc.
      repeat split; trivial. eexists; reflexivity.
Qed.

Lemma pump_stopped (q : list (N * event)) (st : state) (t0 : N) :
  (forall t, (t0 <= t)%N -> stop st t = true) ->
  Forall (fun te => (t0 <= fst te)%N) q ->
  pump stop q st = (q, st).
Proof.
  intros Hstop Hq. destruct q as [|[t e] q]; [reflexivity|].
  simpl. inversion Hq; subst. simpl in *. now rewrite Hstop.
Qed.

End Event_loop.

Lemma stamp_later (now : N) (tr : list timed) :
  Forall (fun t => (now <= t)%N) (map fst (stamp now tr)).
Proof.
  revert now; induction tr as [|e tr IH]; intros now; simpl; constructor.
  - lia.
  - eapply Forall_impl; [|apply IH]. simpl. intros; lia.
Qed.

Lemma stamp_sorted (now : N) (tr : list timed) :
  StronglySorted N.le (map fst (stamp now tr)).
Proof.
  revert now; induction tr as [|e tr IH]; intros now; simpl; constructor.
  - apply IH.
  - apply stamp_later.
Qed.

(** ** The search, piece by piece *)

Lemma await_race_state (st : state) :
  await_race st =
    (inl tt,
     let st' := snd (run_until
                      (fun s t => resolved_by (Promise_race (linkFound s) (timer findTimeout)) t)
                      st) in
     set_raceSettled (Promise_race (linkFound st') (timer findTimeout)) st').
Proof.
  unfold await_race. unfold bind at 1. rewrite run_until_state. reflexivity.
Qed.

Lemma search_falsy (env : engine) (url : jsval) :
  truthy url = false ->
  search env url = (inl JNull, print Error "Error: URL is required." fresh).
Proof.
  intros H. unfold search, findMinimalM3u8Link. rewrite H. reflexivity.
Qed.

Section Steps.

Context {A : Type} (k : M A) (st : state).

Lemma step_modify (f : state -> state) : (modify f ;; k) st = k (f st).
Proof. reflexivity. Qed.

Lemma step_console_log (l : level) (m : string) :
  (console_log l m ;; k) st = k (print l m st).
Proof. reflexivity. Qed.

Lemma step_await_ok (c : call) :
  (await c Ok ;; k) st = k (note (Called c Ok) st).
Proof. reflexivity. Qed.

Lemma step_await_throws (c : call) (e : string) :
  (await c (Throws e) ;; k) st = (inr e, note (Called c (Throws e)) st).
Proof. reflexivity. Qed.

End Steps.

Lemma catch_block_pristine (e : string) (st : state) :
  m3u8Link st = JNull ->
  catch_block e st =
    (inl tt, print Error ("An error occurred during setup or navigation: " ++ e) st).
Proof. intros H. unfold catch_block, bind, gets. rewrite H. reflexivity. Qed.

Ltac step :=
  first [ rewrite step_console_log | rewrite step_modify
        | rewrite step_await_ok | rewrite step_await_throws ].

Lemma ready_reached (env : engine) (url : jsval) :
  print Log
    ("Waiting up to " ++ decimal (findTimeout / 1000)
       ++ " seconds for the M3U8 link...")
    (set_inbox (stamp 0 (trace env))
       (note (Navigating (toString url))
          (print Log
             ("Navigating to " ++ toString url
                ++ "... (will stop once .m3u8 is found or after timeout)")
             (note (Called (PageSetRequestInterception true) Ok)
                (print Log "Setting up network request interception..."
                   (note (Called PageSetUserAgent Ok)
                      (set_page true
                         (note (Called BrowserNewPage Ok)
                            (set_browser true
                               (note (Called PuppeteerLaunch Ok)
                                  (print Log "Launching browser..."
                                     (print Log
                                        ("Attempting to scrape: " ++ toString url)
                                        fresh))))))))))))
  = ready env url.
Proof. vm_compute. reflexivity. Qed.

Lemma try_block_caught (env : engine) (url : jsval) :
  try_catch (try_block env url) catch_block
    (print Log ("Attempting to scrape: " ++ toString url) fresh) =
  (inl tt, if setup_ok env then snd (await_race (ready env url))
           else setup_failed env url).
Proof.
  unfold try_catch, try_block, setup_ok, setup_failed.
  step.
  destruct (launch env); repeat step; [|now rewrite catch_block_pristine].
  destruct (newPage env); repeat step; [|now rewrite catch_block_pristine].
  destruct (setUserAgent env); repeat step; [|now rewrite catch_block_pristine].
  destruct (enableInterception env); repeat step; [|now rewrite catch_block_pristine].
  cbn [is_ok andb]. rewrite ready_reached.
  rewrite await_race_state. reflexivity.
Qed.

Lemma search_truthy (env : engine) (url : jsval) :
  truthy url = true ->
  search env url =
    conclude env (if setup_ok env then snd (await_race (ready env url))
                  else setup_failed env url).
Proof.
  intros H. unfold search, findMinimalM3u8Link. rewrite H.
  cbn [negb]. rewrite step_console_log.
  unfold bind at 1. unfold try_catch_finally.
  rewrite try_block_caught. unfold conclude.
  destruct (finally_block _ _) as [[[]|e] st2]; reflexivity.
Qed.

Section Conclude.

Variable env : engine.

Lemma report_state (st : state) :
  report st =
    (inl (m3u8Link st),
     print Log
       (if truthy (m3u8Link st)
        then LF ++ "✅ Successfully extracted M3U8 Link:" ++ LF
                ++ toString (m3u8Link st) ++ LF
        else LF ++ "❌ M3U8 link not detected within "
                ++ decimal (findTimeout / 1000) ++ " seconds.") st).
Proof.
  unfold report, bind, gets. destruct (truthy (m3u8Link st)); reflexivity.
Qed.

Lemma conclude_not_launched (st : state) :
  browser st = false -> conclude env st = report st.
Proof.
  intros H. unfold conclude, finally_block, bind, gets. now rewrite H.
Qed.

(** The state when [browser.close()] settles. *)
Let closed (st : state) : state :=
  snd (run_until
         (fun _ t =>
            (match raceSettled st with Some s => s | None => 0 end
             + closing env <=? t)%N)
         (print Log "Closing browser (finally block)..." st)).

Lemma conclude_launched (st : state) :
  browser st = true ->
  conclude env st =
    match close env with
    | Ok => report (set_page false (set_browser false
                      (note (Called BrowserClose Ok) (closed st))))
    | Throws e => (inr e, note (Called BrowserClose (Throws e)) (closed st))
    end.
Proof.
  intros H. unfold conclude, finally_block. unfold bind at 1, gets at 1.
  rewrite H. rewrite step_console_log. unfold await_close.
  unfold bind at 2, gets at 1. cbv beta iota.
  unfold closed, bind. cbv beta. rewrite !run_until_state.
  cbn [snd raceSettled print]. unfold await, modify.
  destruct (close env); reflexivity.
Qed.

End Conclude.

(** ** The invariant along the whole search *)

Section Invariant_frames.

Variable st : state.
Hypothesis inv : search_invariant st.

Lemma invariant_print (l : level) (m : string) : search_invariant (print l m st).
Proof. destruct inv; constructor; assumption. Qed.

Lemma invariant_set_browser (b : bool) : search_invariant (set_browser b st).
Proof. destruct inv; constructor; assumption. Qed.

Lemma invariant_set_page (b : bool) : search_invariant (set_page b st).
Proof. destruct inv; constructor; assumption. Qed.

Lemma invariant_set_raceSettled (t : option N) :
  search_invariant (set_raceSettled t st).
Proof. destruct inv; constructor; assumption. Qed.

Lemma invariant_note_call (c : call) (res : result) :
  is_decision (Called c res) = false ->
  search_invariant (note (Called c res) st).
Proof.
  intros Hc. destruct inv as [Hl Ha Hf Hs Hn Hab He Ho].
  assert (Hk : is_continue (Called c res) = false).
  { destruct c; try reflexivity; discriminate. }
  constructor; simpl;
    rewrite ?observed_app, ?assignments_app, ?escaped_app, ?decisions_app;
    simpl; rewrite ?Hc, ?app_nil_r; auto.
  - rewrite after_capture_app.
    destruct (assignments (history st)); [constructor|].
    apply Forall_app. split; [exact Hn | now constructor].
  - intros t r. rewrite after_capture_app.
    destruct (assignments (history st)); [intros []|].
    intros Hin Hr. apply in_app_iff. apply in_app_iff in Hin as [Hin|Hin].
    + left. now apply (Hab t).
    + destruct Hin as [Hin|[]]. discriminate.
  - simpl in Hc. rewrite Hc, app_nil_r. exact Ho.
Qed.

End Invariant_frames.

Lemma pristine_invariant (st : state) :
  m3u8Link st = JNull -> linkFound st = None ->
  observed (history st) = [] -> assignments (history st) = [] ->
  escaped (history st) = [] -> decisions (history st) = [] ->
  StronglySorted N.le (map fst (inbox st)) ->
  search_invariant st.
Proof.
  intros Hl Hf Ho Ha He Hd Hs.
  constructor; rewrite ?Ho, ?Hd; simpl; auto;
    rewrite (nothing_after_no_capture _ Ha).
  - constructor.
  - intros t r [].
Qed.

Lemma ready_invariant (env : engine) (url : jsval) :
  search_invariant (ready env url).
Proof.
  apply pristine_invariant; try reflexivity. simpl. apply stamp_sorted.
Qed.

Lemma setup_failed_invariant (env : engine) (url : jsval) :
  search_invariant (setup_failed env url).
Proof.
  unfold setup_failed.
  destruct (launch env), (newPage env), (setUserAgent env),
    (enableInterception env);
    apply pristine_invariant; try reflexivity; constructor.
Qed.

Lemma await_race_invariant (st : state) :
  search_invariant st -> search_invariant (snd (await_race st)).
Proof.
  intros H. rewrite await_race_state. simpl.
  apply invariant_set_raceSettled. now apply run_until_invariant.
Qed.

Lemma report_invariant (st : state) :
  search_invariant st -> search_invariant (snd (report st)).
Proof. intros H. rewrite report_state. simpl. now apply invariant_print. Qed.

Lemma conclude_invariant (env : engine) (st : state) :
  search_invariant st -> search_invariant (snd (conclude env st)).
Proof.
  intros H. destruct (browser st) eqn:B.
  - rewrite conclude_launched by exact B.
    assert (Hc : forall res,
               search_invariant
                 (note (Called BrowserClose res)
                    (snd (run_until
                       (fun _ t =>
                          (match raceSettled st with Some s => s | None => 0 end
                           + closing env <=? t)%N)
                       (print Log "Closing browser (finally block)..." st))))).
    { intros res. apply invariant_note_call; [|reflexivity].
      apply run_until_invariant. now apply invariant_print. }
    destruct (close env).
    + apply report_invariant, invariant_set_page, invariant_set_browser, Hc.
    + apply Hc.
  - rewrite conclude_not_launched by exact B. now apply report_invariant.
Qed.

Lemma search_keeps_invariant (env : engine) (url : jsval) :
  search_invariant (snd (search env url)).
Proof.
  destruct (truthy url) eqn:T.
  - rewrite search_truthy by exact T. apply conclude_invariant.
    destruct (setup_ok env).
    + apply await_race_invariant, ready_invariant.
    + apply setup_failed_invariant.
  - rewrite search_falsy by exact T. simpl.
    apply invariant_print, pristine_invariant; try reflexivity; constructor.
Qed.

(** ** How a call ends *)

Lemma conclude_outcome (env : engine) (st : state) :
  returns_unless_close_rejects env
    (fst (conclude env st)) (m3u8Link (snd (conclude env st))).
Proof.
  destruct (browser st) eqn:B.
  - rewrite conclude_launched by exact B. destruct (close env) eqn:C.
    + rewrite report_state. reflexivity.
    + simpl. exact C.
  - rewrite conclude_not_launched by exact B. rewrite report_state. reflexivity.
Qed.

Lemma search_outcome (env : engine) (url : jsval) :
  returns_unless_close_rejects env
    (fst (search env url)) (m3u8Link (snd (search env url))).
Proof.
  destruct (truthy url) eqn:T.
  - rewrite search_truthy by exact T. apply conclude_outcome.
  - rewrite search_falsy by exact T. reflexivity.
Qed.

Lemma search_returns (env : engine) (url : jsval) :
  close env = Ok ->
  fst (search env url) = inl (m3u8Link (snd (search env url))).
Proof.
  intros C. pose proof (search_outcome env url) as H.
  unfold returns_unless_close_rejects in H.
  destruct (fst (search env url)); congruence.
Qed.

Lemma await_race_frame (st : state) :
  browser (snd (await_race st)) = browser st
  /\ exists l, history (snd (await_race st)) = history st ++ l.
Proof.
  rewrite await_race_state, run_until_state. simpl.
  match goal with
  | |- context [pump ?f ?q ?s] =>
      destruct (pump_frame f q s) as (Hb & _ & _ & l & Hh)
  end.
  split; [exact Hb | exists l; exact Hh].
Qed.

Lemma conclude_frame (env : engine) (st : state) :
  raceSettled (snd (conclude env st)) = raceSettled st
  /\ exists l, history (snd (conclude env st)) = history st ++ l.
Proof.
  destruct (browser st) eqn:B.
  - rewrite conclude_launched by exact B. rewrite run_until_state.
    match goal with
    | |- context [pump ?f ?q ?s] =>
        destruct (pump_frame f q s) as (_ & _ & Hr & l & Hh)
    end.
    simpl in Hr, Hh.
    destruct (close env); [rewrite report_state|]; simpl; rewrite Hr, Hh;
      (split; [reflexivity|]); rewrite <- app_assoc; eexists; reflexivity.
  - rewrite conclude_not_launched by exact B. rewrite report_state. simpl.
    split; [reflexivity|]. exists []. now rewrite app_nil_r.
Qed.

Lemma setup_failed_launch (env : engine) (url : jsval) :
  In (Called PuppeteerLaunch (launch env)) (history (setup_failed env url)).
Proof.
  unfold setup_failed.
  destruct (launch env), (newPage env), (setUserAgent env),
    (enableInterception env); simpl; auto.
Qed.

Lemma search_launches (env : engine) (url : jsval) :
  truthy url = true ->
  In (Called PuppeteerLaunch (launch env)) (history (snd (search env url))).
Proof.
  intros T. rewrite search_truthy by exact T.
  destruct (conclude_frame env
              (if setup_ok env then snd (await_race (ready env url))
               else setup_failed env url)) as (_ & l & ->).
  apply in_app_iff. left. destruct (setup_ok env) eqn:S.
  - destruct (await_race_frame (ready env url)) as (_ & l' & ->).
    apply in_app_iff. left. unfold setup_ok in S.
    destruct (launch env); [simpl; auto | discriminate].
  - apply setup_failed_launch.
Qed.

(** ** The wait is a race between the capture and the timer *)

Section Race.

Let racing (s : state) (t : N) : bool :=
  resolved_by (Promise_race (linkFound s) (timer findTimeout)) t.

Lemma first_manifest_time_in (q : list (N * event)) (t : N) :
  first_manifest_time q = Some t -> In t (map fst q).
Proof.
  induction q as [|[t' [r|m]] q IH]; simpl; intros H.
  - discriminate.
  - destruct (qualifies (url r)).
    + injection H as ->. now left.
    + right. now apply IH.
  - right. now apply IH.
Qed.

Lemma race_after_deadline (q : list (N * event)) (t : N) :
  (findTimeout <= t)%N ->
  Forall (fun t' => (t <= t')%N) (map fst q) ->
  Promise_race (first_manifest_time q) (timer findTimeout) = Some findTimeout.
Proof.
  intros Ht Hq. destruct (first_manifest_time q) as [t'|] eqn:E; [|reflexivity].
  apply first_manifest_time_in in E.
  rewrite Forall_forall in Hq. specialize (Hq _ E).
  simpl. f_equal. lia.
Qed.

Lemma wait_ends_with_first (q : list (N * event)) (st : state) :
  StronglySorted N.le (map fst q) ->
  truthy (m3u8Link st) = false -> linkFound st = None ->
  Promise_race (linkFound (snd (pump racing q st))) (timer findTimeout) =
  Promise_race (first_manifest_time q) (timer findTimeout).
Proof.
  revert st; induction q as [|[t e] q IH]; intros st Hs Hl Hf.
  - simpl. now rewrite Hf.
  - cbn [map fst] in Hs. inversion Hs as [|? ? Hs' Hall]; subst.
    cbn [pump]. unfold racing at 1. rewrite Hf. cbn [Promise_race timer resolved_by].
    destruct (N.leb_spec findTimeout t) as [Hd|Hd].
    + cbn [snd]. rewrite Hf. symmetry.
      apply (race_after_deadline ((t, e) :: q) t Hd).
      constructor; [cbn; lia | exact Hall].
    + destruct (captures e (m3u8Link st)) eqn:C.
      * destruct e as [r|m]; [|discriminate].
        assert (Hf' : linkFound (dispatch t (Request r) st) = Some t).
        { rewrite dispatch_found. unfold next_found. now rewrite C, Hf. }
        rewrite (pump_stopped racing q _ t).
        -- cbn [snd]. rewrite Hf'. cbn [first_manifest_time].
           simpl in C. rewrite Hl in C. simpl in C. rewrite andb_true_r in C.
           now rewrite C.
        -- intros t' Ht'. unfold racing. rewrite Hf'. simpl.
           apply N.leb_le. lia.
        -- rewrite Forall_map in Hall. exact Hall.
      * rewrite IH.
        -- destruct e as [r|m]; [|reflexivity]. cbn [first_manifest_time].
           simpl in C. rewrite Hl in C. simpl in C. rewrite andb_true_r in C.
           now rewrite C.
        -- exact Hs'.
        -- rewrite dispatch_link. destruct e as [r|m]; [|exact Hl].
           unfold next_link. now rewrite C.
        -- rewrite dispatch_found. unfold next_found. now rewrite C.
Qed.

Lemma await_race_settles (env : engine) (url : jsval) :
  raceSettled (snd (await_race (ready env url))) =
  Promise_race (first_manifest_time (stamp 0 (trace env))) (timer findTimeout).
Proof.
  rewrite await_race_state, run_until_state. cbn [snd raceSettled set_raceSettled].
  cbn [linkFound set_inbox]. change (inbox (ready env url)) with (stamp 0 (trace env)).
  apply (wait_ends_with_first (stamp 0 (trace env)) (ready env url)).
  - apply stamp_sorted.
  - reflexivity.
  - reflexivity.
Qed.

End Race.

Lemma search_settles (env : engine) (url : jsval) :
  truthy url = true -> setup_ok env = true ->
  raceSettled (snd (search env url)) =
  Promise_race (first_manifest_time (stamp 0 (trace env))) (timer findTimeout).
Proof.
  intros T S. rewrite search_truthy by exact T. rewrite S.
  destruct (conclude_frame env (snd (await_race (ready env url)))) as (-> & _).
  apply await_race_settles.
Qed.

(** ** A rejected navigation never changes the search *)

Section Navigation.

Lemma same_search_refl (a : state) : same_search a a.
Proof. repeat split. Qed.

Lemma same_search_trans (a b c : state) :
  same_search a b -> same_search b c -> same_search a c.
Proof.
  unfold same_search. intros (?&?&?&?&?&?) (?&?&?&?&?&?).
  repeat split; congruence.
Qed.

Lemma dispatch_same (t : N) (e : event) (a b : state) :
  same_search a b -> same_search (dispatch t e a) (dispatch t e b).
Proof.
  intros (Hb & Hp & Hl & Hf & Hr & Hh).
  destruct (dispatch_frame t a e) as (Ab & Ap & Ar & _).
  destruct (dispatch_frame t b e) as (Bb & Bp & Br & _).
  unfold same_search.
  rewrite !dispatch_link, !dispatch_found, !dispatch_history.
  rewrite Ab, Ap, Ar, Bb, Bp, Br, Hb, Hp, Hl, Hf, Hr, Hh.
  repeat split.
Qed.

Lemma dispatch_rejection (t : N) (message : string) (st : state) :
  dispatch t (GotoRejected message) st =
    print (if truthy (m3u8Link st) then Log else Warn)
          (if truthy (m3u8Link st)
           then "Navigation ended (or timed out), but M3U8 link was already found."
           else "Navigation potentially failed before M3U8 link found: " ++ message)
          st.
Proof.
  rewrite dispatch_listener. simpl. now rewrite onGotoRejected_summary.
Qed.

Lemma dispatch_rejection_same (t : N) (message : string) (a b : state) :
  same_search a b -> same_search (dispatch t (GotoRejected message) a) b.
Proof. intros H. rewrite dispatch_rejection. exact H. Qed.

Lemma stamp_without_rejections (now carry : N) (tr : list timed) :
  stamp now (without_rejections carry tr) =
  filter is_request (stamp (now + carry) tr).
Proof.
  revert now carry; induction tr as [|[d [r|m]] tr IH]; intros now carry;
    cbn [without_rejections stamp what delay filter is_request snd].
  - reflexivity.
  - rewrite IH, N.add_0_r, N.add_assoc. reflexivity.
  - rewrite IH, N.add_assoc. reflexivity.
Qed.

Variable stop : state -> N -> bool.
Hypothesis stop_same :
  forall a b t, same_search a b -> stop a t = stop b t.
Hypothesis stop_later :
  forall a t t', stop a t = true -> (t <= t')%N -> stop a t' = true.

Lemma pump_without_rejections (q : list (N * event)) (a b : state) :
  StronglySorted N.le (map fst q) -> same_search a b ->
  same_search (snd (pump stop q a)) (snd (pump stop (filter is_request q) b))
  /\ fst (pump stop (filter is_request q) b) =
     filter is_request (fst (pump stop q a)).
Proof.
  revert a b; induction q as [|[t e] q IH]; intros a b Hs Hab.
  - simpl. split; [exact Hab | reflexivity].
  - cbn [map fst] in Hs. inversion Hs as [|? ? Hs' Hall]; subst.
    destruct e as [r|m]; cbn [filter is_request snd pump].
    + rewrite <- (stop_same a b t Hab). destruct (stop a t).
      * simpl. split; [exact Hab | reflexivity].
      * apply IH; [exact Hs' | now apply dispatch_same].
    + destruct (stop a t) eqn:E.
      * rewrite (pump_stopped stop (filter is_request q) b t).
        -- simpl. split; [exact Hab | reflexivity].
        -- intros t' Ht'. rewrite <- (stop_same a b t' Hab).
           now apply (stop_later a t).
        -- rewrite Forall_map in Hall. rewrite Forall_forall in *.
           intros x Hx. apply filter_In in Hx. now apply Hall.
      * apply IH; [exact Hs' | now apply dispatch_rejection_same].
Qed.

End Navigation.

Section Navigation_search.

Lemma sorted_app_r (l1 l2 : list N) :
  StronglySorted N.le (l1 ++ l2) -> StronglySorted N.le l2.
Proof.
  induction l1 as [|a l1 IH]; simpl; intros H; [exact H|].
  inversion H; subst. now apply IH.
Qed.

Lemma invariant_inbox_sorted (st : state) :
  search_invariant st -> StronglySorted N.le (map fst (inbox st)).
Proof. intros H. eapply sorted_app_r. apply (inv_sorted st H). Qed.

Lemma resolved_by_later (p : promise) (t t' : N) :
  resolved_by p t = true -> (t <= t')%N -> resolved_by p t' = true.
Proof.
  destruct p as [s|]; simpl; [|discriminate].
  intros H Ht. apply N.leb_le in H. apply N.leb_le. lia.
Qed.

Lemma same_search_set_inbox (qa qb : list (N * event)) (a b : state) :
  same_search a b -> same_search (set_inbox qa a) (set_inbox qb b).
Proof. intros H. exact H. Qed.

Lemma same_search_print (la lb : level) (ma mb : string) (a b : state) :
  same_search a b -> same_search (print la ma a) (print lb mb b).
Proof. intros H. exact H. Qed.

Lemma same_search_note (x : action) (a b : state) :
  same_search a b -> same_search (note x a) (note x b).
Proof.
  intros (Hb & Hp & Hl & Hf & Hr & Hh). unfold same_search. simpl.
  rewrite Hh. repeat split; assumption.
Qed.

Lemma same_search_closed (a b : state) :
  same_search a b ->
  same_search (set_page false (set_browser false a))
              (set_page false (set_browser false b)).
Proof.
  intros (Hb & Hp & Hl & Hf & Hr & Hh). unfold same_search. simpl.
  repeat split; assumption.
Qed.

Lemma await_race_without_rejections (a b : state) :
  same_search a b -> inbox b = filter is_request (inbox a) ->
  StronglySorted N.le (map fst (inbox a)) ->
  same_search (snd (await_race a)) (snd (await_race b))
  /\ inbox (snd (await_race b)) = filter is_request (inbox (snd (await_race a))).
Proof.
  intros Hab Hq Hs. rewrite !await_race_state, !run_until_state.
  cbn [snd]. rewrite Hq.
  match goal with
  | |- context [pump ?f (inbox a) a] =>
      destruct (pump_without_rejections f) with (q := inbox a) (a := a) (b := b)
        as (Hsame & Hrest)
  end.
  - intros x y t (_ & _ & _ & Hf & _). now rewrite Hf.
  - intros x t t'. apply resolved_by_later.
  - exact Hs.
  - exact Hab.
  - split.
    + destruct Hsame as (Hb & Hp & Hl & Hf & Hr & Hh).
      unfold same_search. simpl. rewrite Hf.
      repeat split; assumption.
    + simpl. exact Hrest.
Qed.

Variable env : engine.

Lemma conclude_without_rejections (a b : state) :
  same_search a b -> inbox b = filter is_request (inbox a) ->
  StronglySorted N.le (map fst (inbox a)) ->
  fst (conclude env a) = fst (conclude (calm_navigation env) b)
  /\ same_search (snd (conclude env a)) (snd (conclude (calm_navigation env) b)).
Proof.
  intros Hab Hq Hs. pose proof Hab as (Hb & _ & _ & _ & Hr & _).
  destruct (browser a) eqn:B.
  - rewrite (conclude_launched env a B).
    rewrite (conclude_launched (calm_navigation env) b) by congruence.
    cbn [close closing calm_navigation]. rewrite !run_until_state.
    cbn [snd inbox print]. rewrite Hq, <- Hr.
    match goal with
    | |- context [pump ?f (inbox a) _] => set (gone := f)
    end.
    set (a' := print Log "Closing browser (finally block)..." a).
    set (b' := print Log "Closing browser (finally block)..." b).
    destruct (pump_without_rejections gone) with (q := inbox a) (a := a') (b := b')
      as (Hsame & _).
    + reflexivity.
    + intros x t t' H Ht. apply N.leb_le in H. apply N.leb_le. lia.
    + exact Hs.
    + exact Hab.
    + assert (Hnote : forall res,
                same_search
                  (note (Called BrowserClose res)
                     (set_inbox (fst (pump gone (inbox a) a'))
                        (snd (pump gone (inbox a) a'))))
                  (note (Called BrowserClose res)
                     (set_inbox (fst (pump gone (filter is_request (inbox a)) b'))
                        (snd (pump gone (filter is_request (inbox a)) b'))))).
      { intros res. apply same_search_note, same_search_set_inbox, Hsame. }
      destruct (close env) as [|e].
      * rewrite !report_state. cbn [fst snd].
        specialize (Hnote Ok). apply same_search_closed in Hnote.
        pose proof Hnote as (_ & _ & Hl & _).
        split; [now rewrite Hl | now apply same_search_print].
      * cbn [fst snd]. split; [reflexivity | apply Hnote].
  - rewrite (conclude_not_launched env a B).
    rewrite (conclude_not_launched (calm_navigation env) b) by congruence.
    rewrite !report_state. cbn [fst snd]. pose proof Hab as (_ & _ & Hl & _).
    split; [now rewrite Hl | now apply same_search_print].
Qed.

Lemma search_without_rejections (url : jsval) :
  fst (search env url) = fst (search (calm_navigation env) url)
  /\ same_search (snd (search env url)) (snd (search (calm_navigation env) url)).
Proof.
  destruct (truthy url) eqn:T.
  - rewrite !search_truthy by exact T.
    change (setup_ok (calm_navigation env)) with (setup_ok env).
    change (setup_failed (calm_navigation env) url) with (setup_failed env url).
    destruct (setup_ok env).
    + destruct (await_race_without_rejections
                  (ready env url) (ready (calm_navigation env) url))
        as (Hsame & Hrest).
      * repeat split.
      * cbn [inbox ready calm_navigation trace].
        now rewrite stamp_without_rejections.
      * apply stamp_sorted.
      * apply conclude_without_rejections; [exact Hsame | exact Hrest |].
        apply invariant_inbox_sorted, await_race_invariant, ready_invariant.
    + apply conclude_without_rejections.
      * apply same_search_refl.
      * unfold setup_failed.
        destruct (launch env), (newPage env), (setUserAgent env),
          (enableInterception env); reflexivity.
      * apply invariant_inbox_sorted, setup_failed_invariant.
  - rewrite !search_falsy by exact T. split; [reflexivity | apply same_search_refl].
Qed.

End Navigation_search.

(** ** First match wins *)

Section First_match.

Lemma find_first_before {A : Type} (f : A -> bool) (l : list A) (x : A) :
  In x l -> f x = true ->
  exists y l1 l2, find f l = Some y /\ l = l1 ++ y :: l2 /\ (x = y \/ In x l2).
Proof.
  induction l as [|a l IH]; intros Hin Hx; [contradiction|].
  simpl. destruct (f a) eqn:Fa.
  - exists a, [], l. repeat split. destruct Hin as [->|Hin]; auto.
  - destruct Hin as [->|Hin]; [congruence|].
    destruct (IH Hin Hx) as (y & l1 & l2 & Hf & -> & Hy).
    exists y, (a :: l1), l2. repeat split; assumption.
Qed.

Lemma sorted_after (l1 l2 : list N) (y : N) :
  StronglySorted N.le (l1 ++ y :: l2) -> Forall (N.le y) l2.
Proof.
  induction l1 as [|a l1 IH]; simpl; intros H; inversion H; subst; auto.
Qed.

Lemma first_manifest_earliest (st : state) (t : N) (r : request) :
  search_invariant st ->
  In (t, r) (observed (history st)) -> qualifies (url r) = true ->
  exists t0 r0,
    first_manifest (observed (history st)) = Some (t0, r0) /\ (t0 <= t)%N.
Proof.
  intros Hinv Hin Hq.
  destruct (find_first_before is_manifest _ (t, r) Hin Hq)
    as ([t0 r0] & l1 & l2 & Hf & Hl & Hy).
  exists t0, r0. split; [exact Hf|].
  destruct Hy as [Hy|Hy]; [injection Hy as -> _; lia|].
  pose proof (inv_sorted st Hinv) as Hs.
  rewrite Hl, map_app, <- app_assoc in Hs. simpl in Hs.
  apply sorted_after in Hs. rewrite Forall_forall in Hs.
  apply (Hs t). apply in_app_iff. left.
  change t with (fst (t, r)). now apply in_map.
Qed.

End First_match.

(** ** The route handler *)

Lemma link_of_shape (obs : list (N * request)) :
  link_shape (link_of (first_manifest obs)).
Proof.
  destruct (first_manifest obs) as [[t r]|] eqn:E; [right | now left].
  exists (url r). split; [reflexivity|].
  apply qualifies_iff. eapply first_manifest_qualifies; eassumption.
Qed.

Lemma search_link_shape (env : engine) (url : jsval) :
  link_shape (m3u8Link (snd (search env url))).
Proof.
  rewrite (inv_link _ (search_keeps_invariant env url)). apply link_of_shape.
Qed.

Lemma scrape_when_close_resolves (env : engine) :
  close env = Ok ->
  exists v, scrape env = Sent 200 [("link", v)] /\ link_shape v.
Proof.
  intros C. unfold scrape.
  pose proof (search_returns env (JString targetUrl) C) as R.
  pose proof (search_link_shape env (JString targetUrl)) as S.
  destruct (search env (JString targetUrl)) as [[v|e] st]; simpl in *;
    [|discriminate].
  injection R as ->. exists (m3u8Link st). split; [|exact S].
  unfold res_send, JSON_object. simpl.
  destruct S as [-> | (u & -> & _)]; reflexivity.
Qed.

Lemma scrape_when_close_rejects (env : engine) (e : string) :
  launch env = Ok -> close env = Throws e -> scrape env = NotSent e.
Proof.
  intros L C. unfold scrape. rewrite search_truthy by reflexivity.
  assert (B : browser (if setup_ok env
                       then snd (await_race (ready env (JString targetUrl)))
                       else setup_failed env (JString targetUrl)) = true).
  { destruct (setup_ok env).
    - now destruct (await_race_frame (ready env (JString targetUrl))) as (-> & _).
    - unfold setup_failed. rewrite L.
      destruct (newPage env), (setUserAgent env), (enableInterception env);
        reflexivity. }
  rewrite conclude_launched by exact B. now rewrite C.
Qed.

(** * The properties of the specification *)

(** ** C1: the first manifest request wins *)

(** X13.  Whenever [browser.close()] resolves: if a request whose URL
    ends in ".m3u8" is observed before the deadline, then the first such
    request observed was itself observed before the deadline, its URL is
    the value [findMinimalM3u8Link] returns, and the route handler sends
    status 200 with that URL in the [link] field, however many qualifying
    requests follow. *)
Theorem first_manifest_is_sent (env : engine) (t : N) (r : request) :
  close env = Ok ->
  In (t, r) (observed (history (snd (search env (JString targetUrl))))) ->
  qualifies (url r) = true ->
  (t < findTimeout)%N ->
  exists t0 r0,
    first_manifest (observed (history (snd (search env (JString targetUrl)))))
    = Some (t0, r0)
    /\ (t0 <= t)%N /\ (t0 < findTimeout)%N
    /\ fst (search env (JString targetUrl)) = inl (JString (url r0))
    /\ scrape env = Sent 200 [("link", JString (url r0))].
Proof.
  intros C Hin Hq Ht.
  pose proof (search_keeps_invariant env (JString targetUrl)) as Hinv.
  destruct (first_manifest_earliest _ t r Hinv Hin Hq) as (t0 & r0 & Hf & Hle).
  pose proof (search_returns env (JString targetUrl) C) as R.
  rewrite (inv_link _ Hinv), Hf in R. simpl in R.
  exists t0, r0. repeat split; try assumption; try lia.
  unfold scrape. destruct (search env (JString targetUrl)) as [out st].
  simpl in R. rewrite R. reflexivity.
Qed.

Lemma first_manifest_is_sent_witness :
  exists t0 r0,
    first_manifest
      (observed (history (snd (search two_manifests (JString targetUrl)))))
    = Some (t0, r0)
    /\ (t0 <= 550)%N /\ (t0 < findTimeout)%N
    /\ fst (search two_manifests (JString targetUrl)) = inl (JString (url r0))
    /\ scrape two_manifests = Sent 200 [("link", JString (url r0))].
Proof.
  apply (first_manifest_is_sent two_manifests 550
           (plain "https://cdn.example/b.m3u8")).
  - reflexivity.
  - vm_compute. right. right. left. reflexivity.
  - vm_compute. reflexivity.
  - vm_compute. reflexivity.
Defined.

(** C1, at the failing input: a request whose URL ends in ".m3u8" is
    observed 500 ms into the wait and [m3u8Link] holds its URL, but
    [browser.close()] rejects: [findMinimalM3u8Link] returns no value and
    the route handler never reaches [res.send], so no [link] field is
    sent. *)
Theorem first_manifest_lost_when_close_rejects :
  In (500%N, plain "https://cdn.example/a.m3u8")
     (observed (history (snd (search close_rejects (JString targetUrl)))))
  /\ qualifies "https://cdn.example/a.m3u8" = true
  /\ (500 < findTimeout)%N
  /\ m3u8Link (snd (search close_rejects (JString targetUrl)))
     = JString "https://cdn.example/a.m3u8"
  /\ (forall v, fst (search close_rejects (JString targetUrl)) <> inl v)
  /\ (forall status body, scrape close_rejects <> Sent status body).
Proof.
  split; [vm_compute; left; reflexivity|].
  split; [vm_compute; reflexivity|].
  split; [vm_compute; reflexivity|].
  split; [vm_compute; reflexivity|].
  split.
  - intros v H. vm_compute in H. discriminate H.
  - intros status body H. vm_compute in H. discriminate H.
Qed.

(** Scenario 3 of the specification. *)
Example two_manifests_first_returned :
  scrape two_manifests = Sent 200 [("link", JString "https://cdn.example/a.m3u8")].
Proof. vm_compute. reflexivity. Qed.

(** ** C2: requests observed after the capture *)

(** C2, as stated, fails: a request observed after the capture whose
    [abort()] the engine refuses (interception was switched off at line 66)
    is not aborted; the listener ignores the error. *)
Lemma refused_abort_lets_request_through :
  In (Observed 520 (not_intercepted "https://cdn.example/seg1.ts"))
     (after_capture
        (history (snd (search segment_after_capture (JString targetUrl)))))
  /\ ~ In (Called (RequestAbort (not_intercepted "https://cdn.example/seg1.ts")) Ok)
          (history (snd (search segment_after_capture (JString targetUrl)))).
Proof.
  split.
  - vm_compute. right. right. left. reflexivity.
  - intros H. vm_compute in H.
    repeat (destruct H as [H|H]; [discriminate H|]). exact H.
Qed.

(** C2, amended.  For every request observed after the capture, the
    listener never calls [request.continue()], and it calls
    [request.abort()] on the request unless its interception is already
    resolved; whether that call succeeds is up to the engine. *)
Theorem later_requests_are_refused
    (env : engine) (target : jsval) (t : N) (r : request) :
  In (Observed t r) (after_capture (history (snd (search env target)))) ->
  (forall r' res,
      ~ In (Called (RequestContinue r') res)
           (after_capture (history (snd (search env target)))))
  /\ (isInterceptResolutionHandled r = false ->
      In (Called (RequestAbort r) (abort r))
         (after_capture (history (snd (search env target))))).
Proof.
  intros Hin. pose proof (search_keeps_invariant env target) as Hinv. split.
  - intros r' res Hc. pose proof (inv_no_continue _ Hinv) as Hn.
    rewrite Forall_forall in Hn. specialize (Hn _ Hc). discriminate.
  - intros Hr. exact (inv_aborts _ Hinv t r Hin Hr).
Qed.

Lemma later_requests_are_refused_witness :
  (forall r' res,
      ~ In (Called (RequestContinue r') res)
           (after_capture
              (history (snd (search segment_after_capture (JString targetUrl))))))
  /\ (isInterceptResolutionHandled
        (not_intercepted "https://cdn.example/seg1.ts") = false ->
      In (Called (RequestAbort (not_intercepted "https://cdn.example/seg1.ts"))
            (abort (not_intercepted "https://cdn.example/seg1.ts")))
         (after_capture
            (history (snd (search segment_after_capture (JString targetUrl)))))).
Proof.
  apply (later_requests_are_refused segment_after_capture (JString targetUrl) 520
           (not_intercepted "https://cdn.example/seg1.ts")).
  vm_compute. right. right. left. reflexivity.
Defined.

(** ** C3 and C4: a rejection of [browser.close()] *)

(** What holds in general: an error of the setup or of the navigation never
    leaves the search, and the only exception that does is the rejection of
    [browser.close()] in the [finally] block, which is not caught. *)
Lemma only_close_rejection_escapes (env : engine) (target : jsval) (e : string) :
  fst (search env target) = inr e -> close env = Throws e.
Proof.
  intros H. pose proof (search_outcome env target) as Ho.
  rewrite H in Ho. exact Ho.
Qed.

(** Scenario 5 of the specification: session creation fails. *)
Example launch_failure_gives_null :
  scrape {| launch := Throws "Error: Failed to launch the browser process!";
            newPage := Ok; setUserAgent := Ok; enableInterception := Ok;
            trace := []; closing := 0; close := Ok |}
  = Sent 200 [("link", JNull)].
Proof. vm_compute. reflexivity. Qed.

(** C3, at the failing input: the link was captured, [browser.close()]
    rejects, and the rejection leaves [findMinimalM3u8Link]; nothing about
    it is written to the console. *)
Theorem close_rejection_propagates :
  fst (search close_rejects (JString targetUrl))
  = inr "Protocol error (Browser.close): Target closed."
  /\ m3u8Link (snd (search close_rejects (JString targetUrl)))
     = JString "https://cdn.example/a.m3u8"
  /\ filter (fun line => match fst line with Log => false | _ => true end)
       (console (snd (search close_rejects (JString targetUrl)))) = []
  /\ last (console (snd (search close_rejects (JString targetUrl)))) (Log, "")
     = (Log, "Closing browser (finally block)...").
Proof. vm_compute. repeat split. Qed.

(** C4, at the failing input: the route handler rejects before [res.send]
    is reached, so no response with a [link] field is produced. *)
Theorem close_rejection_leaves_no_response :
  scrape close_rejects = NotSent "Protocol error (Browser.close): Target closed.".
Proof. vm_compute. reflexivity. Qed.

(** ** C5: the wait *)

(** C5, as stated, fails in its last part: no qualifying request is
    observed before the deadline, the wait ends at the deadline, and the
    call still returns a link, captured while [browser.close()] was
    pending. *)
Lemma late_manifest_is_returned :
  (forall t r,
      In (t, r)
         (observed (history (snd (search late_manifest (JString targetUrl))))) ->
      (t < findTimeout)%N -> qualifies (url r) = false)
  /\ raceSettled (snd (search late_manifest (JString targetUrl)))
     = Some findTimeout
  /\ fst (search late_manifest (JString targetUrl))
     = inl (JString "https://cdn.example/live.m3u8").
Proof.
  split; [|split; vm_compute; reflexivity].
  intros t r H Ht. vm_compute in H.
  destruct H as [H|[H|[]]]; injection H as <- <-.
  - reflexivity.
  - vm_compute in Ht. discriminate Ht.
Qed.

(** Scenarios 1 and 2 of the specification: the wait ends at the capture,
    or at the deadline when the page issues no manifest request. *)
Example wait_ends_at_capture :
  raceSettled (snd (search two_manifests (JString targetUrl))) = Some 500%N.
Proof. vm_compute. reflexivity. Qed.

Example wait_ends_at_deadline :
  raceSettled
    (snd (search (calm [after 100 (Request (plain "https://cdn.example/app.js"))])
            (JString targetUrl))) = Some 10000%N
  /\ scrape (calm [after 100 (Request (plain "https://cdn.example/app.js"))])
     = Sent 200 [("link", JNull)].
Proof. vm_compute. split; reflexivity. Qed.

(** ** C6: a rejected navigation *)

(** C6, as stated, fails in one detail: when the link was captured before
    navigation rejects, the rejection is reported with [console.log], not
    as a warning, and the message of the error is not printed. *)
Lemma rejection_after_capture_is_not_a_warning :
  inbox (snd (search navigation_rejects_after_capture (JString targetUrl))) = []
  /\ In (Log, "Navigation ended (or timed out), but M3U8 link was already found.")
        (console (snd (search navigation_rejects_after_capture (JString targetUrl))))
  /\ filter (fun line => match fst line with Warn => true | _ => false end)
       (console (snd (search navigation_rejects_after_capture (JString targetUrl)))) = [].
Proof.
  split; [vm_compute; reflexivity|]. split; [|vm_compute; reflexivity].
  vm_compute. do 7 right. left. reflexivity.
Qed.

(** C6, amended.  A rejection of [page.goto] only adds one line to the
    console: a warning with the message of the error when no link has been
    captured yet, a plain log line when one has.  It changes nothing else:
    the search on a trace and the search on the same trace without its
    navigation failures end the same way, with the same result, the same
    captured link and the same record of calls. *)
Theorem navigation_failure_is_only_logged
    (env : engine) (target : jsval) (t : N) (message : string) (st : state) :
  dispatch t (GotoRejected message) st
  = print (if truthy (m3u8Link st) then Log else Warn)
      (if truthy (m3u8Link st)
       then "Navigation ended (or timed out), but M3U8 link was already found."
       else "Navigation potentially failed before M3U8 link found: " ++ message)
      st
  /\ fst (search env target) = fst (search (calm_navigation env) target)
  /\ same_search (snd (search env target))
       (snd (search (calm_navigation env) target)).
Proof.
  split; [apply dispatch_rejection | apply search_without_rejections].
Qed.

(** Scenario 4 of the specification. *)
Example captured_link_survives_navigation_failure :
  scrape navigation_rejects_after_capture
  = Sent 200 [("link", JString "https://cdn.example/a.m3u8")].
Proof. vm_compute. reflexivity. Qed.

(** ** C7: one decision per request *)

(** C7.  For every state and every request, the request listener returns
    normally (whatever [abort()] or [continue()] throw is caught), and it
    calls [abort()] or [continue()] exactly once when the interception of
    the request is not yet resolved and not at all when it is.  Over a
    whole search no rejection of a listener escapes, and the number of
    decisions taken equals the number of observed requests whose
    interception was unresolved. *)
Theorem decision_applied_at_most_once
    (env : engine) (target : jsval) (t : N) (r : request) (st : state) :
  fst (onRequest t r st) = inl tt
  /\ (exists d,
         decisions (history (snd (onRequest t r st)))
         = decisions (history st) ++ d
         /\ length d = if isInterceptResolutionHandled r then 0 else 1)
  /\ escaped (history (snd (onRequest t r st))) = escaped (history st)
  /\ escaped (history (snd (search env target))) = []
  /\ length (decisions (history (snd (search env target))))
     = length (filter unresolved (observed (history (snd (search env target))))).
Proof.
  destruct (onRequest_summary t st r) as (Hr & Hh & _).
  pose proof (search_keeps_invariant env target) as Hinv.
  split; [exact Hr|]. split; [|split; [|split]].
  - exists (decisions (effects t (Request r) (page st) (m3u8Link st))).
    rewrite Hh, decisions_app. split; [reflexivity|].
    rewrite decisions_effects.
    destruct (isInterceptResolutionHandled r); [reflexivity|].
    destruct (qualifies (url r) && negb (truthy (m3u8Link st)));
      [reflexivity|]. destruct (negb (truthy (m3u8Link st))); reflexivity.
  - rewrite Hh, escaped_app, escaped_effects. apply app_nil_r.
  - apply (inv_escaped _ Hinv).
  - apply (inv_once _ Hinv).
Qed.

(** A request whose [abort()] throws "already handled": nothing escapes. *)
Example double_resolution_is_swallowed :
  fst (onRequest 7
         {| url := "https://cdn.example/a.m3u8";
            isInterceptResolutionHandled := false;
            abort := Throws "Request is already handled!";
            continue := Throws "Request is already handled!";
            isClosed := false;
            disableInterception := Throws "Target closed" |} fresh) = inl tt.
Proof. vm_compute. reflexivity. Qed.

(** ** C8: no URL, no session *)

(** C8.  When the URL is absent or empty the search returns [null] and
    calls nothing of the engine; [puppeteer.launch] is called only when
    the URL is a non-empty string, and then it always is. *)
Theorem no_url_no_session (env : engine) (target : jsval) :
  (target = JUndefined \/ target = JNull \/ target = JString "" ->
   fst (search env target) = inl JNull
   /\ history (snd (search env target)) = [])
  /\ (forall res,
         In (Called PuppeteerLaunch res) (history (snd (search env target))) ->
         exists s, target = JString s /\ s <> "")
  /\ ((exists s, target = JString s /\ s <> "") ->
      In (Called PuppeteerLaunch (launch env)) (history (snd (search env target)))).
Proof.
  split; [|split].
  - intros H. rewrite search_falsy; [split; reflexivity|].
    destruct H as [->|[->| ->]]; reflexivity.
  - intros res H. destruct (truthy target) eqn:T.
    + destruct target as [| |s]; try discriminate. exists s. split; [reflexivity|].
      intros ->. discriminate.
    + rewrite search_falsy in H by exact T. contradiction.
  - intros (s & -> & Hs). apply search_launches. simpl.
    destruct (String.eqb_spec s ""); [contradiction | reflexivity].
Qed.

Lemma no_url_no_session_witness :
  fst (search two_manifests (JString "")) = inl JNull
  /\ history (snd (search two_manifests (JString ""))) = [].
Proof.
  apply (no_url_no_session two_manifests (JString "")).
  right. right. reflexivity.
Defined.

(** ** C9: the captured link is written once *)

(** C9.  Over a whole search at most one value is ever assigned to
    [m3u8Link]; it is a URL that qualifies, and [m3u8Link] holds it when
    the search ends ([null] when nothing was assigned).  Once [m3u8Link]
    holds a non-empty string, no listener changes it or assigns to it
    again. *)
Theorem link_written_once
    (env : engine) (target : jsval) (t : N) (e : event) (st : state) (u : string) :
  (length (assignments (history (snd (search env target)))) <= 1
   /\ m3u8Link (snd (search env target))
      = match assignments (history (snd (search env target))) with
        | [] => JNull
        | v :: _ => JString v
        end
   /\ Forall (fun v => qualifies v = true)
        (assignments (history (snd (search env target)))))
  /\ (m3u8Link st = JString u -> u <> "" ->
      m3u8Link (dispatch t e st) = JString u
      /\ assignments (history (dispatch t e st)) = assignments (history st)).
Proof.
  split.
  - pose proof (search_keeps_invariant env target) as Hinv.
    rewrite (inv_link _ Hinv), (inv_assigned _ Hinv).
    destruct (first_manifest (observed (history (snd (search env target)))))
      as [[t0 r0]|] eqn:E; simpl.
    + repeat split; [lia|]. constructor; [|constructor].
      eapply first_manifest_qualifies; eassumption.
    + repeat split; [lia | constructor].
  - intros Hl Hu.
    assert (T : truthy (m3u8Link st) = true).
    { rewrite Hl. simpl. destruct (String.eqb_spec u ""); [contradiction | reflexivity]. }
    assert (C : captures e (m3u8Link st) = false).
    { destruct e as [r|m]; [|reflexivity]. simpl. rewrite T. apply andb_false_r. }
    rewrite dispatch_link, dispatch_history, assignments_app. split.
    + destruct e as [r|m]; simpl; [|exact Hl].
      simpl in C. now rewrite C.
    + destruct e as [r|m]; [|simpl; now rewrite app_nil_r].
      rewrite assignments_effects, C. apply app_nil_r.
Qed.

Lemma link_written_once_witness :
  m3u8Link
    (dispatch 550 (Request (plain "https://cdn.example/b.m3u8"))
       (assign "https://cdn.example/a.m3u8" fresh))
  = JString "https://cdn.example/a.m3u8"
  /\ assignments
       (history
          (dispatch 550 (Request (plain "https://cdn.example/b.m3u8"))
             (assign "https://cdn.example/a.m3u8" fresh)))
     = assignments (history (assign "https://cdn.example/a.m3u8" fresh)).
Proof.
  apply (link_written_once two_manifests (JString targetUrl) 550
           (Request (plain "https://cdn.example/b.m3u8"))
           (assign "https://cdn.example/a.m3u8" fresh)
           "https://cdn.example/a.m3u8").
  - reflexivity.
  - discriminate.
Defined.

(** ** C10: the suffix test *)






Example uppercase_extension_does_not_qualify :
  qualifies "https://cdn.example/live.M3U8" = false
  /\ qualifies "https://cdn.example/live.m3u8" = true.
Proof. vm_compute. split; reflexivity. Qed.

(** * Further properties of the code *)

(** ** What the event loop and the teardown keep *)

Section Kept_by_the_search.

Variable P : state -> Prop.
Hypothesis P_dispatch : forall t e st, P st -> P (dispatch t e st).
Hypothesis P_print : forall m st, P st -> P (print Log m st).
Hypothesis P_set_inbox : forall q st, P st -> P (set_inbox q st).
Hypothesis P_set_raceSettled :
  forall st,
    P st ->
    P (set_raceSettled (Promise_race (linkFound st) (timer findTimeout)) st).

Lemma pump_keeps (stop : state -> N -> bool) (q : list (N * event)) (st : state) :
  P st -> P (snd (pump stop q st)).
Proof.
  revert st; induction q as [|[t e] q IH]; intros st H; simpl; [exact H|].
  destruct (stop st t); simpl; [exact H|]. apply IH. now apply P_dispatch.
Qed.

Lemma run_until_keeps (stop : state -> N -> bool) (st : state) :
  P st -> P (snd (run_until stop st)).
Proof.
  intros H. rewrite run_until_state. simpl. apply P_set_inbox.
  now apply pump_keeps.
Qed.

Lemma await_race_keeps (st : state) : P st -> P (snd (await_race st)).
Proof.
  intros H. rewrite await_race_state. simpl. apply P_set_raceSettled.
  now apply run_until_keeps.
Qed.

Variables (env : engine) (target : jsval).
Hypothesis P_ready : setup_ok env = true -> P (ready env target).
Hypothesis P_failed : setup_ok env = false -> P (setup_failed env target).

(** A search with a URL, cut at the moment [browser.close()] settles (or at
    the end of the [catch] block when no browser was launched). *)
Lemma search_decomposed :
  truthy target = true ->
  exists st,
    P st /\ browser st = is_ok (launch env)
    /\ search env target =
       if browser st then
         match close env with
         | Ok => report (set_page false (set_browser false
                           (note (Called BrowserClose Ok) st)))
         | Throws e => (inr e, note (Called BrowserClose (Throws e)) st)
         end
       else report st.
Proof.
  intros T. rewrite search_truthy by exact T.
  set (pre := if setup_ok env then snd (await_race (ready env target))
              else setup_failed env target).
  assert (Hpre : P pre /\ browser pre = is_ok (launch env)).
  { unfold pre. destruct (setup_ok env) eqn:S.
    - split; [now apply await_race_keeps, P_ready|].
      destruct (await_race_frame (ready env target)) as (-> & _).
      unfold setup_ok in S. destruct (launch env); [reflexivity | discriminate].
    - split; [now apply P_failed|].
      unfold setup_ok in S. unfold setup_failed.
      destruct (launch env), (newPage env), (setUserAgent env),
        (enableInterception env); try reflexivity; discriminate. }
  destruct Hpre as (Hp & Hb).
  destruct (browser pre) eqn:B.
  - rewrite (conclude_launched env pre B).
    match goal with
    | |- context [note (Called BrowserClose Ok) ?s] => set (st := s)
    end.
    assert (Hst : browser st = true).
    { unfold st. rewrite run_until_state. simpl.
      match goal with
      | |- context [pump ?f ?q ?s] =>
          destruct (pump_frame f q s) as (Hbr & _)
      end.
      rewrite Hbr. exact B. }
    exists st. rewrite Hst. split; [|split; [exact Hb | reflexivity]].
    apply run_until_keeps, P_print, Hp.
  - rewrite (conclude_not_launched env pre B).
    exists pre. rewrite B. repeat split; [exact Hp | exact Hb].
Qed.

End Kept_by_the_search.

(** ** What one listener adds to the record *)

Ltac effects_cases r currentPage link :=
  unfold effects, abort_attempt, continue_attempt, disable_attempt;
  destruct (qualifies (url r)) eqn:?Q, (truthy link) eqn:?T,
    (isInterceptResolutionHandled r) eqn:?Hd,
    (currentPage && negb (isClosed r)) eqn:?Pg.

Section Effects_members.

Variables (t : N) (r : request) (currentPage : bool) (link : jsval).

Lemma effects_no_close :
  filter is_close (effects t (Request r) currentPage link) = [].
Proof. effects_cases r currentPage link; reflexivity. Qed.

Lemma effects_no_setup :
  filter is_setup (effects t (Request r) currentPage link) = [].
Proof. effects_cases r currentPage link; reflexivity. Qed.

Lemma effects_disable_once :
  length (filter is_disable (effects t (Request r) currentPage link))
  <= length (assignments (effects t (Request r) currentPage link)).
Proof. effects_cases r currentPage link; simpl; lia. Qed.

Lemma effects_members (a : action) :
  In a (effects t (Request r) currentPage link) ->
  a = Observed t r
  \/ (qualifies (url r) = true /\ truthy link = false
      /\ (a = Assigned (url r)
          \/ a = Called (PageSetRequestInterception false) (disableInterception r)
          \/ (a = Called (RequestAbort r) (abort r)
              /\ isInterceptResolutionHandled r = false)))
  \/ (qualifies (url r) = false /\ truthy link = false
      /\ a = Called (RequestContinue r) (continue r)
      /\ isInterceptResolutionHandled r = false)
  \/ (truthy link = true
      /\ a = Called (RequestAbort r) (abort r)
      /\ isInterceptResolutionHandled r = false).
Proof.
  effects_cases r currentPage link; simpl; intuition (subst; auto 10).
Qed.

Lemma effects_answer_manifest :
  qualifies (url r) = true -> isInterceptResolutionHandled r = false ->
  In (Called (RequestAbort r) (abort r)) (effects t (Request r) currentPage link).
Proof.
  intros Q H. effects_cases r currentPage link; try discriminate; simpl; auto.
Qed.

Lemma effects_answer_before_capture :
  qualifies (url r) = false -> truthy link = false ->
  isInterceptResolutionHandled r = false ->
  In (Called (RequestContinue r) (continue r))
     (effects t (Request r) currentPage link).
Proof.
  intros Q T H. effects_cases r currentPage link; try discriminate; simpl; auto.
Qed.

End Effects_members.

Lemma captures_truthy (e : event) (link : jsval) :
  truthy (next_link e link) = false ->
  captures e link = false /\ next_link e link = link.
Proof.
  destruct e as [r|m]; [|intros _; split; reflexivity].
  unfold next_link. destruct (captures (Request r) link) eqn:C;
    [|intros _; split; reflexivity].
  intros H. simpl in C. apply andb_prop in C as [Q _].
  rewrite (qualifies_nonempty _ Q) in H. discriminate.
Qed.

(** ** Teardown and setup *)

(** X1.  [browser.close()] is called exactly once in a search that
    launched a browser, whatever happened in between (a failure of a later
    setup call, a capture, the deadline), and it is not called at all when
    the URL is missing or [puppeteer.launch] rejected. *)
Theorem browser_closed_exactly_once (env : engine) (target : jsval) :
  filter is_close (history (snd (search env target)))
  = if truthy target && is_ok (launch env)
    then [Called BrowserClose (close env)]
    else [].
Proof.
  destruct (truthy target) eqn:T;
    [|rewrite search_falsy by exact T; reflexivity].
  set (P := fun st => filter is_close (history st) = []).
  assert (Hd : forall t e s, P s -> P (dispatch t e s)).
  { unfold P. intros t e s H. rewrite dispatch_history, filter_app, H.
    destruct e as [r|m]; [apply effects_no_close | reflexivity]. }
  assert (Hr : setup_ok env = true -> P (ready env target)).
  { intros _. reflexivity. }
  assert (Hf : setup_ok env = false -> P (setup_failed env target)).
  { intros _. unfold P, setup_failed.
    destruct (launch env), (newPage env), (setUserAgent env),
      (enableInterception env); reflexivity. }
  destruct (search_decomposed P Hd (fun _ _ H => H) (fun _ _ H => H)
              (fun _ H => H) env target Hr Hf T) as (st & Hp & Hb & ->).
  unfold P in Hp. rewrite Hb. simpl. destruct (is_ok (launch env)).
  - destruct (close env); [rewrite report_state|]; simpl;
      rewrite filter_app, Hp; reflexivity.
  - rewrite report_state. simpl. exact Hp.
Qed.

(** X3.  The setup calls are made in the order [puppeteer.launch],
    [browser.newPage], [page.setUserAgent],
    [page.setRequestInterception(true)]; each is made only if every call
    before it resolved, and navigation starts only after all four
    resolved.  Nothing later in the search repeats any of them. *)
Theorem setup_runs_in_order (env : engine) (target : jsval) :
  filter is_setup (history (snd (search env target)))
  = if truthy target then setup_script env target else [].
Proof.
  destruct (truthy target) eqn:T;
    [|rewrite search_falsy by exact T; reflexivity].
  set (P := fun st => filter is_setup (history st) = setup_script env target).
  assert (Hd : forall t e s, P s -> P (dispatch t e s)).
  { unfold P. intros t e s H. rewrite dispatch_history, filter_app, H.
    destruct e as [r|m]; [rewrite effects_no_setup|]; apply app_nil_r. }
  assert (Hr : setup_ok env = true -> P (ready env target)).
  { unfold P, setup_ok, setup_script. intros S.
    destruct (launch env), (newPage env), (setUserAgent env),
      (enableInterception env); try discriminate. reflexivity. }
  assert (Hf : setup_ok env = false -> P (setup_failed env target)).
  { unfold P, setup_ok, setup_script, setup_failed. intros S.
    destruct (launch env), (newPage env), (setUserAgent env),
      (enableInterception env); try discriminate; reflexivity. }
  destruct (search_decomposed P Hd (fun _ _ H => H) (fun _ _ H => H)
              (fun _ H => H) env target Hr Hf T) as (st & Hp & Hb & ->).
  unfold P in Hp. destruct (browser st).
  - destruct (close env); [rewrite report_state|]; simpl;
      rewrite filter_app, Hp; apply app_nil_r.
  - rewrite report_state. simpl. exact Hp.
Qed.

(** ** The decisions of the request listener over a whole search *)

Section Decisions.

Variables (env : engine) (target : jsval).

Let final : state := snd (search env target).

(** While no link is captured, nothing is aborted and every observed
    request whose interception is unresolved is continued. *)
Let open_road (st : state) : Prop :=
  truthy (m3u8Link st) = false ->
  filter is_abort (history st) = []
  /\ forall t r,
       In (Observed t r) (history st) ->
       isInterceptResolutionHandled r = false ->
       In (Called (RequestContinue r) (continue r)) (history st).

(** A manifest request is never continued and always answered with
    [abort()]; interception is switched off only together with an
    assignment. *)
Let guarded (st : state) : Prop :=
  (forall r res,
      In (Called (RequestContinue r) res) (history st) ->
      qualifies (url r) = false)
  /\ (forall t r,
         In (Observed t r) (history st) ->
         qualifies (url r) = true ->
         isInterceptResolutionHandled r = false ->
         In (Called (RequestAbort r) (abort r)) (history st))
  /\ length (filter is_disable (history st))
     <= length (assignments (history st)).

Lemma open_road_dispatch (t : N) (e : event) (st : state) :
  open_road st -> open_road (dispatch t e st).
Proof.
  unfold open_road. rewrite dispatch_link, dispatch_history. intros H T.
  destruct (captures_truthy e _ T) as (C & E). rewrite E in T.
  destruct (H T) as (Ha & Hc).
  destruct e as [r|m]; [|simpl; rewrite app_nil_r; now split].
  assert (Q : qualifies (url r) = false).
  { simpl in C. rewrite T in C. simpl in C. now rewrite andb_true_r in C. }
  rewrite (effects_passed t r (page st) (m3u8Link st) T Q). split.
  - rewrite filter_app, Ha. unfold continue_attempt.
    destruct (isInterceptResolutionHandled r); reflexivity.
  - intros t' r' Hin Hr. apply in_app_iff. apply in_app_iff in Hin as [Hin|Hin].
    + left. now apply (Hc t').
    + right. destruct Hin as [Hin|Hin].
      * injection Hin as <- <-. right. unfold continue_attempt.
        rewrite Hr. now left.
      * unfold continue_attempt in Hin.
        destruct (isInterceptResolutionHandled r); simpl in Hin;
          intuition discriminate.
Qed.

Lemma guarded_dispatch (t : N) (e : event) (st : state) :
  guarded st -> guarded (dispatch t e st).
Proof.
  unfold guarded. rewrite dispatch_history. intros (Hc & Ha & Hd).
  destruct e as [r|m]; [|simpl; rewrite app_nil_r; now repeat split].
  repeat split.
  - intros r' res Hin. apply in_app_iff in Hin as [Hin|Hin];
      [now apply (Hc r' res)|].
    apply effects_members in Hin.
    destruct Hin as [Hin|[(_ & _ & [Hin|[Hin|(Hin & _)]])|[(Q & _ & Hin & _)|(_ & Hin & _)]]];
      try discriminate Hin.
    injection Hin as <- _. exact Q.
  - intros t' r' Hin Q Hr. apply in_app_iff.
    apply in_app_iff in Hin as [Hin|Hin]; [left; now apply (Ha t')|].
    right. apply effects_members in Hin.
    destruct Hin as [Hin|[(_ & _ & [Hin|[Hin|(Hin & _)]])|[(_ & _ & Hin & _)|(_ & Hin & _)]]];
      try discriminate Hin.
    injection Hin as <- <-. now apply effects_answer_manifest.
  - rewrite filter_app, assignments_app, !length_app.
    pose proof (effects_disable_once t r (page st) (m3u8Link st)). lia.
Qed.

Lemma pristine_decisions (st : state) :
  m3u8Link st = JNull -> observed (history st) = [] ->
  decisions (history st) = [] -> filter is_disable (history st) = [] ->
  open_road st /\ guarded st.
Proof.
  intros Hl Ho Hd Hi.
  assert (Hobs : forall t r, ~ In (Observed t r) (history st)).
  { intros t r Hin.
    assert (In (t, r) (observed (history st))).
    { unfold observed. apply in_flat_map. exists (Observed t r).
      split; [exact Hin | now left]. }
    rewrite Ho in H. contradiction. }
  assert (Hdec : forall a, In a (history st) -> is_decision a = false).
  { intros a Hin. destruct (is_decision a) eqn:E; [|reflexivity].
    assert (In a (decisions (history st))) by (apply filter_In; now split).
    rewrite Hd in H. contradiction. }
  split.
  - intros _. split.
    + destruct (filter is_abort (history st)) as [|a l] eqn:E; [reflexivity|].
      assert (Hin : In a (filter is_abort (history st))) by (rewrite E; now left).
      apply filter_In in Hin as (Hin & Ha). specialize (Hdec a Hin).
      destruct a as [[]| | | |]; discriminate.
    + intros t r Hin. now apply Hobs in Hin.
  - repeat split.
    + intros r res Hin. specialize (Hdec _ Hin). discriminate.
    + intros t r Hin. now apply Hobs in Hin.
    + rewrite Hi. simpl. lia.
Qed.

Lemma decisions_at_close :
  truthy target = true ->
  exists st,
    (open_road st /\ guarded st)
    /\ history final
       = history st ++ (if browser st then [Called BrowserClose (close env)] else [])
    /\ m3u8Link final = m3u8Link st.
Proof.
  intros T.
  set (P := fun st => open_road st /\ guarded st).
  assert (Hd : forall t e s, P s -> P (dispatch t e s)).
  { intros t e s (H1 & H2).
    split; [now apply open_road_dispatch | now apply guarded_dispatch]. }
  assert (Hr : setup_ok env = true -> P (ready env target)).
  { intros _. apply pristine_decisions; reflexivity. }
  assert (Hf : setup_ok env = false -> P (setup_failed env target)).
  { intros _. unfold setup_failed.
    destruct (launch env), (newPage env), (setUserAgent env),
      (enableInterception env); apply pristine_decisions; reflexivity. }
  destruct (search_decomposed P Hd (fun _ _ H => H) (fun _ _ H => H)
              (fun _ H => H) env target Hr Hf T) as (st & Hp & Hb & E).
  exists st. split; [exact Hp|]. unfold final. rewrite E.
  destruct (browser st).
  - destruct (close env); [rewrite report_state|]; simpl; split; reflexivity.
  - rewrite report_state. simpl. now rewrite app_nil_r.
Qed.

End Decisions.

(** X4.  In a search that captures no link, the listener never calls
    [abort()], and it calls [continue()] on every observed request whose
    interception is not already resolved: until a manifest shows up the
    page loads undisturbed. *)
Theorem without_capture_every_request_continues
    (env : engine) (target : jsval) (t : N) (r : request) :
  m3u8Link (snd (search env target)) = JNull ->
  In (Observed t r) (history (snd (search env target))) ->
  isInterceptResolutionHandled r = false ->
  filter is_abort (history (snd (search env target))) = []
  /\ In (Called (RequestContinue r) (continue r))
        (history (snd (search env target))).
Proof.
  intros Hl Hin Hr. destruct (truthy target) eqn:T.
  - destruct (decisions_at_close env target T) as (st & ((Ho & _) & Hh & Hm)).
    rewrite Hm in Hl. rewrite Hh in *.
    assert (Tl : truthy (m3u8Link st) = false) by now rewrite Hl.
    destruct (Ho Tl) as (Ha & Hc). split.
    + rewrite filter_app, Ha. destruct (browser st); reflexivity.
    + apply in_app_iff. left. apply (Hc t); [|exact Hr].
      apply in_app_iff in Hin as [Hin|Hin]; [exact Hin|].
      destruct (browser st); simpl in Hin; intuition discriminate.
  - rewrite search_falsy in Hin by exact T. contradiction.
Qed.

Lemma without_capture_every_request_continues_witness :
  filter is_abort (history (snd (search no_manifest (JString targetUrl)))) = []
  /\ In (Called (RequestContinue (plain "https://cdn.example/style.css"))
           (continue (plain "https://cdn.example/style.css")))
        (history (snd (search no_manifest (JString targetUrl)))).
Proof.
  apply (without_capture_every_request_continues no_manifest
           (JString targetUrl) 130 (plain "https://cdn.example/style.css")).
  - vm_compute. reflexivity.
  - vm_compute. do 7 right. left. reflexivity.
  - reflexivity.
Defined.

(** X5.  A manifest request is never let through: [continue()] is only
    ever called on a request whose URL does not end with ".m3u8", and
    every observed request whose URL does gets [abort()] called on it
    unless its interception is already resolved, be it the request that
    is captured or a later one. *)
Theorem manifest_requests_are_never_continued
    (env : engine) (target : jsval) (t : N) (r : request) :
  (forall r' res,
      In (Called (RequestContinue r') res) (history (snd (search env target))) ->
      qualifies (url r') = false)
  /\ (In (Observed t r) (history (snd (search env target))) ->
      qualifies (url r) = true ->
      isInterceptResolutionHandled r = false ->
      In (Called (RequestAbort r) (abort r)) (history (snd (search env target)))).
Proof.
  destruct (truthy target) eqn:T.
  - destruct (decisions_at_close env target T)
      as (st & ((_ & Hc & Ha & _) & Hh & _)).
    rewrite Hh. split.
    + intros r' res Hin. apply in_app_iff in Hin as [Hin|Hin];
        [now apply (Hc r' res)|].
      destruct (browser st); simpl in Hin; intuition discriminate.
    + intros Hin Q Hr. apply in_app_iff. left. apply (Ha t); trivial.
      apply in_app_iff in Hin as [Hin|Hin]; [exact Hin|].
      destruct (browser st); simpl in Hin; intuition discriminate.
  - rewrite search_falsy by exact T. simpl. split; [intros ? ? []|intros []].
Qed.

Lemma manifest_requests_are_never_continued_witness :
  In (Called (RequestAbort (plain "https://cdn.example/b.m3u8"))
        (abort (plain "https://cdn.example/b.m3u8")))
     (history (snd (search two_manifests (JString targetUrl)))).
Proof.
  apply (manifest_requests_are_never_continued two_manifests
           (JString targetUrl) 550 (plain "https://cdn.example/b.m3u8")).
  - vm_compute. do 11 right. left. reflexivity.
  - reflexivity.
  - reflexivity.
Defined.

(** X6.  Interception is switched off at most once in a search, and only
    by the listener that captures the link: the number of
    [setRequestInterception(false)] calls never exceeds the number of
    assignments to [m3u8Link], which is at most one. *)
Theorem interception_disabled_at_most_once (env : engine) (target : jsval) :
  length (filter is_disable (history (snd (search env target))))
  <= length (assignments (history (snd (search env target))))
  /\ length (assignments (history (snd (search env target)))) <= 1.
Proof.
  split.
  - destruct (truthy target) eqn:T.
    + destruct (decisions_at_close env target T)
        as (st & ((_ & _ & _ & Hd) & Hh & _)).
      rewrite Hh, filter_app, assignments_app, !length_app.
      destruct (browser st); simpl; lia.
    + rewrite search_falsy by exact T. simpl. lia.
  - rewrite (inv_assigned _ (search_keeps_invariant env target)).
    destruct (first_manifest _) as [[t0 r0]|]; simpl; lia.
Qed.

(** X7.  The completion signal and the captured link go together:
    [linkFoundPromise] is resolved exactly when [m3u8Link] is not [null],
    and it was resolved at the moment the first qualifying request was
    observed, the request whose URL [m3u8Link] holds. *)
Theorem completion_signal_matches_link
    (env : engine) (target : jsval) (t0 : N) :
  (linkFound (snd (search env target)) = None
   <-> m3u8Link (snd (search env target)) = JNull)
  /\ (linkFound (snd (search env target)) = Some t0 ->
      exists r0,
        first_manifest (observed (history (snd (search env target))))
        = Some (t0, r0)
        /\ m3u8Link (snd (search env target)) = JString (url r0)).
Proof.
  pose proof (search_keeps_invariant env target) as Hinv.
  rewrite (inv_found _ Hinv), (inv_link _ Hinv).
  destruct (first_manifest _) as [[t r]|]; simpl.
  - split; [split; discriminate|]. intros H. injection H as ->.
    exists r. split; reflexivity.
  - split; [split; reflexivity | discriminate].
Qed.

Lemma completion_signal_matches_link_witness :
  exists r0,
    first_manifest
      (observed (history (snd (search two_manifests (JString targetUrl)))))
    = Some (500%N, r0)
    /\ m3u8Link (snd (search two_manifests (JString targetUrl)))
       = JString (url r0).
Proof.
  apply (completion_signal_matches_link two_manifests (JString targetUrl) 500).
  vm_compute. reflexivity.
Defined.

(** ** A setup that fails *)

Lemma run_until_idle (stop : state -> N -> bool) (st : state) :
  inbox st = [] -> run_until stop st = (inl tt, st).
Proof.
  intros H. rewrite run_until_state, H. simpl. rewrite <- H.
  now rewrite set_inbox_same.
Qed.

Lemma conclude_idle (env : engine) (st : state) :
  inbox st = [] ->
  conclude env st =
    if browser st then
      match close env with
      | Ok => report (set_page false (set_browser false
                        (note (Called BrowserClose Ok)
                           (print Log "Closing browser (finally block)..." st))))
      | Throws e =>
          (inr e, note (Called BrowserClose (Throws e))
                    (print Log "Closing browser (finally block)..." st))
      end
    else report st.
Proof.
  intros H. destruct (browser st) eqn:B.
  - rewrite (conclude_launched env st B). now rewrite run_until_idle.
  - now apply conclude_not_launched.
Qed.

(** X2.  When a call of the setup rejects, the search does not wait: the
    race is never entered, no request is observed, exactly one line is
    printed with [console.error], and the result is [null] (returned
    unless [browser.close()] rejects). *)
Theorem setup_failure_gives_null (env : engine) (target : jsval) :
  truthy target = true -> setup_ok env = false ->
  raceSettled (snd (search env target)) = None
  /\ observed (history (snd (search env target))) = []
  /\ length (filter is_error_line (console (snd (search env target)))) = 1
  /\ m3u8Link (snd (search env target)) = JNull
  /\ returns_unless_close_rejects env (fst (search env target)) JNull.
Proof.
  intros T S. rewrite search_truthy by exact T. rewrite S.
  rewrite conclude_idle.
  2:{ unfold setup_failed.
      destruct (launch env), (newPage env), (setUserAgent env),
        (enableInterception env); reflexivity. }
  unfold setup_ok in S. unfold setup_failed.
  destruct (launch env) as [|e1].
  - destruct (newPage env) as [|e2].
    + destruct (setUserAgent env) as [|e3].
      * destruct (enableInterception env) as [|e4]; [discriminate|].
        destruct (close env) eqn:C; [rewrite report_state|]; simpl;
          repeat split; auto.
      * destruct (close env) eqn:C; [rewrite report_state|]; simpl;
          repeat split; auto.
    + destruct (close env) eqn:C; [rewrite report_state|]; simpl;
        repeat split; auto.
  - rewrite report_state. simpl. repeat split; auto.
Qed.

Lemma setup_failure_gives_null_witness :
  raceSettled (snd (search no_page (JString targetUrl))) = None
  /\ observed (history (snd (search no_page (JString targetUrl)))) = []
  /\ length (filter is_error_line
               (console (snd (search no_page (JString targetUrl))))) = 1
  /\ m3u8Link (snd (search no_page (JString targetUrl))) = JNull
  /\ returns_unless_close_rejects no_page
       (fst (search no_page (JString targetUrl))) JNull.
Proof.
  apply (setup_failure_gives_null no_page (JString targetUrl)); reflexivity.
Defined.

(** ** The report and the response *)

Lemma search_cut (env : engine) (target : jsval) :
  truthy target = true ->
  exists st,
    browser st = is_ok (launch env)
    /\ search env target =
       if browser st then
         match close env with
         | Ok => report (set_page false (set_browser false
                           (note (Called BrowserClose Ok) st)))
         | Throws e => (inr e, note (Called BrowserClose (Throws e)) st)
         end
       else report st.
Proof.
  intros T.
  destruct (search_decomposed (fun _ => True) (fun _ _ _ H => H)
              (fun _ _ H => H) (fun _ _ H => H) (fun _ H => H)
              env target (fun _ => I) (fun _ => I) T) as (st & _ & Hb & E).
  exists st. split; assumption.
Qed.

(** X8.  Whenever the search of a URL returns, the last line on the
    console tells the outcome: the success line with the link that is
    returned, or the line saying that no link was detected when the result
    is [null]; and the local variables [browser] and [page] are [null]
    again. *)
Theorem report_tells_the_result (env : engine) (target : jsval) (v : jsval) :
  truthy target = true ->
  fst (search env target) = inl v ->
  last (console (snd (search env target))) (Log, "") = report_line v
  /\ v = m3u8Link (snd (search env target))
  /\ browser (snd (search env target)) = false
  /\ page (snd (search env target)) = false.
Proof.
  intros T.
  set (P := fun st => browser st = false -> page st = false).
  assert (Hd : forall t e s, P s -> P (dispatch t e s)).
  { unfold P. intros t e s H.
    destruct (dispatch_frame t s e) as (-> & -> & _). exact H. }
  assert (Hr : setup_ok env = true -> P (ready env target)).
  { intros _ H. discriminate H. }
  assert (Hf : setup_ok env = false -> P (setup_failed env target)).
  { intros _. unfold P, setup_failed.
    destruct (launch env), (newPage env), (setUserAgent env),
      (enableInterception env); simpl; intros H; try discriminate H;
      reflexivity. }
  destruct (search_decomposed P Hd (fun _ _ H => H) (fun _ _ H => H)
              (fun _ H => H) env target Hr Hf T) as (st & Hp & _ & ->).
  destruct (browser st) eqn:B.
  - destruct (close env); [|discriminate]. rewrite report_state. simpl.
    intros H. injection H as <-. rewrite last_last. repeat split.
  - rewrite report_state. simpl. intros H. injection H as <-.
    rewrite last_last. repeat split; [exact B | exact (Hp B)].
Qed.

Lemma report_tells_the_result_witness :
  last (console (snd (search two_manifests (JString targetUrl)))) (Log, "")
  = report_line (JString "https://cdn.example/a.m3u8")
  /\ JString "https://cdn.example/a.m3u8"
     = m3u8Link (snd (search two_manifests (JString targetUrl)))
  /\ browser (snd (search two_manifests (JString targetUrl))) = false
  /\ page (snd (search two_manifests (JString targetUrl))) = false.
Proof.
  apply (report_tells_the_result two_manifests (JString targetUrl)
           (JString "https://cdn.example/a.m3u8")).
  - reflexivity.
  - vm_compute. reflexivity.
Defined.

(** X9.  The route handler ends in one of two ways only.  Either it calls
    [res.send] with an object that has exactly one field, [link], holding
    [null] or a string that ends with ".m3u8" (status 200 is the default
    of [res.send]); or it rejects before [res.send] is reached, and that
    happens exactly when a browser was launched and [browser.close()]
    rejected (what the client then receives is up to the web framework).
    A failure of the launch, of the page, of the interception setup or of
    the navigation never prevents the call of [res.send]. *)
Theorem route_outcome (env : engine) :
  match scrape env with
  | Sent status body =>
      status = 200%N
      /\ (exists v, body = [("link", v)] /\ link_shape v)
      /\ (launch env = Ok -> close env = Ok)
  | NotSent e => launch env = Ok /\ close env = Throws e
  end.
Proof.
  destruct (search_cut env (JString targetUrl) eq_refl) as (st & Hb & E).
  pose proof (search_link_shape env (JString targetUrl)) as S.
  unfold scrape. rewrite E in *. destruct (browser st) eqn:B.
  - assert (L : launch env = Ok).
    { destruct (launch env); [reflexivity | discriminate]. }
    destruct (close env) as [|e]; [|now split].
    rewrite report_state in *. simpl in *.
    split; [reflexivity|]. split; [|reflexivity].
    exists (m3u8Link st). split; [|exact S].
    unfold JSON_object. simpl. destruct S as [-> | (u & -> & _)]; reflexivity.
  - rewrite report_state in *. simpl in *.
    split; [reflexivity|]. split.
    + exists (m3u8Link st). split; [|exact S].
      unfold JSON_object. simpl. destruct S as [-> | (u & -> & _)]; reflexivity.
    + intros L. rewrite L in Hb. discriminate.
Qed.

(** ** The answers of the engine inside the listeners *)

Section Best_effort.

(** Queues that deliver events of the same shape at the same times. *)
Let alike (q1 q2 : list (N * event)) : Prop :=
  Forall2 (fun x y => fst x = fst y /\ shape (snd x) = shape (snd y)) q1 q2.

Lemma stamp_alike (now : N) (tr1 tr2 : list timed) :
  map timed_shape tr1 = map timed_shape tr2 ->
  alike (stamp now tr1) (stamp now tr2).
Proof.
  revert now tr2; induction tr1 as [|a tr1 IH]; intros now [|b tr2] H;
    try discriminate; simpl; [constructor|].
  injection H as Hd Hs Ht. rewrite Hd. constructor.
  - split; [reflexivity | exact Hs].
  - now apply IH.
Qed.

Lemma dispatch_alike (t : N) (e1 e2 : event) (a b : state) :
  shape e1 = shape e2 -> same_variables a b ->
  same_variables (dispatch t e1 a) (dispatch t e2 b).
Proof.
  intros Hs (Hb & Hp & Hl & Hf & Hr).
  destruct (dispatch_frame t a e1) as (Ab & Ap & Ar & _).
  destruct (dispatch_frame t b e2) as (Bb & Bp & Br & _).
  unfold same_variables.
  rewrite !dispatch_link, !dispatch_found, Ab, Ap, Ar, Bb, Bp, Br.
  rewrite Hb, Hp, Hl, Hf, Hr.
  destruct e1 as [r1|m1], e2 as [r2|m2]; try discriminate;
    [|repeat split].
  injection Hs as Hu. unfold next_link, next_found, captures. rewrite Hu.
  repeat split.
Qed.

Variable stop1 stop2 : state -> N -> bool.
Hypothesis stop_alike :
  forall a b t, same_variables a b -> stop1 a t = stop2 b t.

Lemma pump_alike (q1 q2 : list (N * event)) (a b : state) :
  alike q1 q2 -> same_variables a b ->
  same_variables (snd (pump stop1 q1 a)) (snd (pump stop2 q2 b))
  /\ alike (fst (pump stop1 q1 a)) (fst (pump stop2 q2 b)).
Proof.
  intros Hq. revert a b.
  induction Hq as [|[t1 e1] [t2 e2] q1 q2 (Ht & Hs) Hq IH]; intros a b Hab.
  - simpl. split; [exact Hab | constructor].
  - simpl in Ht, Hs. subst t2. cbn [pump].
    rewrite (stop_alike a b t1 Hab). destruct (stop2 b t1).
    + simpl. split; [exact Hab|]. constructor; [now split | exact Hq].
    + apply IH. now apply dispatch_alike.
Qed.

End Best_effort.

Lemma run_until_alike (stop1 stop2 : state -> N -> bool) (a b : state) :
  (forall x y t, same_variables x y -> stop1 x t = stop2 y t) ->
  Forall2 (fun x y => fst x = fst y /\ shape (snd x) = shape (snd y))
    (inbox a) (inbox b) ->
  same_variables a b ->
  same_variables (snd (run_until stop1 a)) (snd (run_until stop2 b))
  /\ Forall2 (fun x y => fst x = fst y /\ shape (snd x) = shape (snd y))
       (inbox (snd (run_until stop1 a))) (inbox (snd (run_until stop2 b))).
Proof.
  intros Hs Hq Hab. rewrite !run_until_state. simpl.
  destruct (pump_alike stop1 stop2 Hs (inbox a) (inbox b) a b Hq Hab)
    as (H1 & H2).
  split; [exact H1 | exact H2].
Qed.

(** X10.  The calls the listener makes to the engine are best effort:
    whether [isInterceptResolutionHandled()], [isClosed()],
    [setRequestInterception(false)], [abort()] and [continue()] answer
    yes or no, resolve or throw, changes neither the value returned nor
    the variables of the search.  Two engines that deliver requests with
    the same URLs at the same times, and agree on the setup and on
    [browser.close()], end the search in the same way. *)
Theorem listener_calls_never_change_the_result
    (e1 e2 : engine) (target : jsval) :
  same_traffic e1 e2 ->
  fst (search e1 target) = fst (search e2 target)
  /\ same_variables (snd (search e1 target)) (snd (search e2 target)).
Proof.
  intros (Hl & Hn & Hu & Hi & Hc & Hx & Ht).
  destruct (truthy target) eqn:T;
    [|rewrite !search_falsy by exact T; repeat split].
  rewrite !search_truthy by exact T.
  assert (S : setup_ok e1 = setup_ok e2).
  { unfold setup_ok. now rewrite Hl, Hn, Hu, Hi. }
  assert (F : setup_failed e1 target = setup_failed e2 target).
  { unfold setup_failed. now rewrite Hl, Hn, Hu, Hi. }
  rewrite <- S, F.
  set (R := fun x y : N * event => fst x = fst y /\ shape (snd x) = shape (snd y)).
  assert (Hpre : exists a b,
             (if setup_ok e1 then snd (await_race (ready e1 target))
              else setup_failed e2 target) = a
             /\ (if setup_ok e1 then snd (await_race (ready e2 target))
                 else setup_failed e2 target) = b
             /\ same_variables a b /\ Forall2 R (inbox a) (inbox b)).
  { destruct (setup_ok e1).
    - do 2 eexists. split; [reflexivity|]. split; [reflexivity|].
      rewrite !await_race_state. cbn [snd].
      match goal with
      | |- context [run_until ?f (ready e1 target)] =>
          destruct (run_until_alike f f (ready e1 target) (ready e2 target))
            as (H1 & H2)
      end.
      + intros x y t (_ & _ & _ & Hf & _). now rewrite Hf.
      + simpl. now apply stamp_alike.
      + repeat split.
      + split; [|exact H2].
        destruct H1 as (Hb & Hp & Hm & Hf & Hr). unfold same_variables.
        simpl. rewrite Hf. repeat split; assumption.
    - exists (setup_failed e2 target), (setup_failed e2 target).
      repeat split.
      assert (E : inbox (setup_failed e2 target) = []).
      { unfold setup_failed.
        destruct (launch e2), (newPage e2), (setUserAgent e2),
          (enableInterception e2); reflexivity. }
      rewrite E. constructor. }
  destruct Hpre as (a & b & -> & -> & Hab & Hq).
  pose proof Hab as (Hb & _ & _ & _ & Hr).
  destruct (browser a) eqn:B.
  - rewrite (conclude_launched e1 a B).
    rewrite (conclude_launched e2 b) by congruence.
    rewrite <- Hx, <- Hc, <- Hr.
    match goal with
    | |- context [run_until ?f (print ?l ?m a)] =>
        destruct (run_until_alike f f (print l m a) (print l m b))
          as ((Cb & Cp & Cm & Cf & Cr) & _)
    end.
    + reflexivity.
    + exact Hq.
    + exact Hab.
    + destruct (close e1); [rewrite !report_state|]; simpl;
        unfold same_variables; simpl; rewrite ?Cm, ?Cf, ?Cr;
        repeat split; assumption.
  - rewrite (conclude_not_launched e1 a B).
    rewrite (conclude_not_launched e2 b) by congruence.
    rewrite !report_state. simpl. destruct Hab as (? & ? & Hm & ? & ?).
    rewrite Hm. repeat split; assumption.
Qed.

Lemma listener_calls_never_change_the_result_witness :
  fst (search two_manifests (JString targetUrl))
  = fst (search hostile_manifests (JString targetUrl))
  /\ same_variables (snd (search two_manifests (JString targetUrl)))
       (snd (search hostile_manifests (JString targetUrl))).
Proof.
  apply (listener_calls_never_change_the_result two_manifests hostile_manifests
           (JString targetUrl)).
  repeat split.
Defined.

(** The hostile engine throws at every call of the listener, and the first
    manifest is still returned. *)
Example hostile_engine_same_link :
  scrape hostile_manifests
  = Sent 200 [("link", JString "https://cdn.example/a.m3u8")].
Proof. vm_compute. reflexivity. Qed.

(** ** What is printed *)

Lemma onRequest_console (t : N) (r : request) (st : state) :
  exists lines,
    console (snd (onRequest t r st)) = console st ++ lines
    /\ Forall quiet lines.
Proof.
  unfold onRequest. unfold_monad.
  change (endsWith (url r) ".m3u8") with (qualifies (url r)).
  destruct st as [b p link found settled q c h].
  cbn [fst snd page m3u8Link linkFound browser raceSettled inbox history
       console note assign print resolveLinkFound].
  destruct (qualifies (url r)), (truthy link) eqn:E;
    cbn [andb negb fst snd page m3u8Link linkFound browser raceSettled inbox
         history console note assign print resolveLinkFound];
    rewrite ?E; cbn [negb andb];
    repeat (match goal with
            | |- context [isInterceptResolutionHandled r] =>
                destruct (isInterceptResolutionHandled r)
            | |- context [isClosed r] => destruct (isClosed r)
            | |- context [if p && _ then _ else _] => destruct p
            | |- context [match ?x with Ok => _ | Throws _ => _ end] =>
                destruct x
            end;
            cbn [andb negb fst snd page m3u8Link linkFound browser
                 raceSettled inbox history console note assign print
                 resolveLinkFound app]);
    first
      [ exists []; split; [now rewrite app_nil_r | constructor]
      | eexists; split;
        [ rewrite <- ?app_assoc; reflexivity
        | repeat (apply Forall_cons;
                  [ first [ left; reflexivity
                          | right; split;
                            [reflexivity | right; eexists; reflexivity] ] | ]);
          apply Forall_nil ] ].
Qed.

Lemma dispatch_console (t : N) (e : event) (st : state) :
  exists lines,
    console (dispatch t e st) = console st ++ lines /\ Forall quiet lines.
Proof.
  destruct e as [r|m].
  - rewrite dispatch_listener. apply onRequest_console.
  - rewrite dispatch_rejection. eexists. split; [reflexivity|].
    constructor; [|constructor].
    destruct (truthy (m3u8Link st)); [now left|].
    right. split; [reflexivity|]. left. eexists. reflexivity.
Qed.

(** X11.  Once the setup has succeeded nothing is reported as an error:
    every line the search prints is a plain [console.log] line or one of
    two warnings (navigation failed before any capture; interception could
    not be switched off).  Errors thrown by [abort()] and [continue()]
    print nothing, and [console.error] is reserved for a missing URL and
    for a setup that failed. *)
Theorem no_error_line_after_setup (env : engine) (target : jsval) :
  truthy target = true -> setup_ok env = true ->
  Forall quiet (console (snd (search env target))).
Proof.
  intros T S.
  set (P := fun st => Forall quiet (console st)).
  assert (Hd : forall t e s, P s -> P (dispatch t e s)).
  { unfold P. intros t e s H.
    destruct (dispatch_console t e s) as (lines & -> & Hq).
    apply Forall_app. now split. }
  assert (Hp : forall m s, P s -> P (print Log m s)).
  { unfold P. intros m s H. simpl. apply Forall_app. split; [exact H|].
    constructor; [now left | constructor]. }
  assert (Hr : setup_ok env = true -> P (ready env target)).
  { intros _. unfold P. simpl. repeat constructor. }
  assert (Hf : setup_ok env = false -> P (setup_failed env target)).
  { rewrite S. discriminate. }
  destruct (search_decomposed P Hd Hp (fun _ _ H => H) (fun _ H => H)
              env target Hr Hf T) as (st & Hst & _ & ->).
  unfold P in Hst. destruct (browser st).
  - destruct (close env); [rewrite report_state|]; simpl; [|exact Hst].
    apply Forall_app. split; [exact Hst|].
    constructor; [now left | constructor].
  - rewrite report_state. simpl. apply Forall_app. split; [exact Hst|].
    constructor; [now left | constructor].
Qed.

Lemma no_error_line_after_setup_witness :
  Forall quiet (console (snd (search hostile_manifests (JString targetUrl)))).
Proof.
  apply (no_error_line_after_setup hostile_manifests (JString targetUrl));
    reflexivity.
Defined.

(** With the hostile engine the one warning is the failed attempt to
    switch interception off. *)
Example hostile_engine_warns_once :
  filter (fun line => match fst line with Warn => true | _ => false end)
    (console (snd (search hostile_manifests (JString targetUrl))))
  = [(Warn, "Warning: Could not disable request interception during cleanup. Protocol error: Target closed.")].
Proof. vm_compute. reflexivity. Qed.

(** ** What is listened to, and until when *)

Section Listening.

Let racing (s : state) (t : N) : bool :=
  resolved_by (Promise_race (linkFound s) (timer findTimeout)) t.

Lemma Promise_race_end (q : list (N * event)) :
  Promise_race (first_manifest_time q) (timer findTimeout) = Some (race_end q).
Proof. unfold race_end. now destruct (first_manifest_time q). Qed.

Lemma race_end_le (q : list (N * event)) : (race_end q <= findTimeout)%N.
Proof. unfold race_end. destruct (first_manifest_time q); lia. Qed.

Lemma race_end_after_deadline (q : list (N * event)) (t : N) :
  (findTimeout <= t)%N -> Forall (fun t' => (t <= t')%N) (map fst q) ->
  race_end q = findTimeout.
Proof.
  intros Ht Hq. pose proof (race_after_deadline q t Ht Hq) as H.
  rewrite Promise_race_end in H. now injection H.
Qed.

Lemma race_end_lower (q : list (N * event)) (t : N) :
  (t <= findTimeout)%N -> Forall (fun t' => (t <= t')%N) (map fst q) ->
  (t <= race_end q)%N.
Proof.
  intros Ht Hq. unfold race_end.
  destruct (first_manifest_time q) as [t'|] eqn:E; [|exact Ht].
  apply first_manifest_time_in in E. rewrite Forall_forall in Hq.
  specialize (Hq _ E). lia.
Qed.

Lemma dispatch_observed (t : N) (e : event) (st : state) :
  observed (history (dispatch t e st))
  = observed (history st)
      ++ match e with Request r => [(t, r)] | GotoRejected _ => [] end.
Proof.
  rewrite dispatch_history, observed_app. destruct e as [r|m]; [|reflexivity].
  now rewrite observed_effects.
Qed.

Lemma pump_observed_mono (stop : state -> N -> bool) (q : list (N * event))
    (st : state) (x : N * request) :
  In x (observed (history st)) ->
  In x (observed (history (snd (pump stop q st)))).
Proof.
  intros H. destruct (pump_frame stop q st) as (_ & _ & _ & l & ->).
  rewrite observed_app. apply in_app_iff. now left.
Qed.

(** While the race is pending: every request that comes before the end of
    the race is handled, nothing that comes after it is, and what is left
    in the queue comes at or after it. *)
Lemma race_delivers (q : list (N * event)) (st : state) :
  StronglySorted N.le (map fst q) ->
  truthy (m3u8Link st) = false -> linkFound st = None ->
  (forall t r,
      In (t, r) (observed (history (snd (pump racing q st)))) ->
      In (t, r) (observed (history st)) \/ (t <= race_end q)%N)
  /\ (forall t r,
         In (t, Request r) q -> (t < race_end q)%N ->
         In (t, r) (observed (history (snd (pump racing q st)))))
  /\ Forall (fun te => (race_end q <= fst te)%N) (fst (pump racing q st)).
Proof.
  revert st; induction q as [|[t e] q IH]; intros st Hs Hl Hf.
  - simpl. repeat split; [now left | intros ? ? [] | constructor].
  - cbn [map fst] in Hs. inversion Hs as [|? ? Hs' Hall]; subst.
    cbn [pump]. unfold racing at 1 3 5. rewrite Hf.
    cbn [Promise_race timer resolved_by].
    destruct (N.leb_spec findTimeout t) as [Hd|Hd].
    + (* the timer has fired *)
      assert (E : race_end ((t, e) :: q) = findTimeout).
      { apply (race_end_after_deadline _ t Hd). constructor; [cbn; lia | exact Hall]. }
      rewrite E. cbn [fst snd]. repeat split.
      * now left.
      * intros t' r' Hin Hlt. exfalso.
        assert (Ht' : (t <= t')%N).
        { destruct Hin as [Hin|Hin]; [injection Hin as <- _; lia|].
          rewrite Forall_forall in Hall. apply (Hall t').
          change t' with (fst (t', Request r')). now apply in_map. }
        lia.
      * constructor; [cbn; lia|]. rewrite Forall_map in Hall.
        eapply Forall_impl; [|exact Hall]. cbn. intros; lia.
    + destruct (captures e (m3u8Link st)) eqn:C.
      * (* this request is captured: the race ends now *)
        destruct e as [r|m]; [|discriminate].
        assert (Q : qualifies (url r) = true).
        { simpl in C. now apply andb_prop in C as [Q _]. }
        assert (E : race_end ((t, Request r) :: q) = t).
        { unfold race_end. cbn [first_manifest_time]. rewrite Q. lia. }
        assert (Hf' : linkFound (dispatch t (Request r) st) = Some t).
        { rewrite dispatch_found. unfold next_found. now rewrite C, Hf. }
        rewrite (pump_stopped racing q _ t).
        -- rewrite E. cbn [fst snd]. rewrite dispatch_observed. repeat split.
           ++ intros t' r' Hin. apply in_app_iff in Hin as [Hin|[Hin|[]]];
                [now left|]. injection Hin as <- _. right. lia.
           ++ intros t' r' Hin Hlt. exfalso.
              assert (Ht' : (t <= t')%N).
              { destruct Hin as [Hin|Hin]; [injection Hin as <- _; lia|].
                rewrite Forall_forall in Hall. apply (Hall t').
                change t' with (fst (t', Request r')). now apply in_map. }
              lia.
           ++ rewrite Forall_map in Hall. exact Hall.
        -- intros t' Ht'. unfold racing. rewrite Hf'. simpl.
           apply N.leb_le. lia.
        -- rewrite Forall_map in Hall. exact Hall.
      * (* nothing captured: the race goes on *)
        assert (E : race_end ((t, e) :: q) = race_end q).
        { unfold race_end. destruct e as [r|m]; [|reflexivity].
          cbn [first_manifest_time]. simpl in C. rewrite Hl in C. simpl in C.
          rewrite andb_true_r in C. now rewrite C. }
        assert (Hl' : truthy (m3u8Link (dispatch t e st)) = false).
        { rewrite dispatch_link. destruct e as [r|m]; [|exact Hl].
          unfold next_link. now rewrite C. }
        assert (Hf' : linkFound (dispatch t e st) = None).
        { rewrite dispatch_found. unfold next_found. now rewrite C. }
        destruct (IH (dispatch t e st) Hs' Hl' Hf') as (H1 & H2 & H3).
        rewrite E. repeat split.
        -- intros t' r' Hin. destruct (H1 t' r' Hin) as [Hold|Hle]; [|now right].
           rewrite dispatch_observed in Hold.
           apply in_app_iff in Hold as [Hold|Hnew]; [now left|].
           destruct e as [r|m]; [|contradiction].
           destruct Hnew as [Hnew|[]]. injection Hnew as <- _. right.
           apply race_end_lower; [lia | exact Hall].
        -- intros t' r' Hin Hlt. destruct Hin as [Hin|Hin].
           ++ injection Hin as <- ->. apply pump_observed_mono.
              rewrite dispatch_observed. apply in_app_iff. right. now left.
           ++ now apply H2.
        -- exact H3.
Qed.

(** While the browser closes: only what comes before it is gone is
    handled. *)
Lemma closing_delivers (limit : N) (q : list (N * event)) (st : state)
    (t : N) (r : request) :
  In (t, r) (observed (history (snd (pump (fun _ t' => (limit <=? t')%N) q st)))) ->
  In (t, r) (observed (history st)) \/ (t < limit)%N.
Proof.
  revert st; induction q as [|[t' e] q IH]; intros st; simpl; [now left|].
  destruct (N.leb_spec limit t') as [Hd|Hd]; simpl; [now left|].
  intros Hin. destruct (IH _ Hin) as [Hold|Hlt]; [|now right].
  rewrite dispatch_observed in Hold.
  apply in_app_iff in Hold as [Hold|Hnew]; [now left|].
  destruct e as [r'|m]; [|contradiction].
  destruct Hnew as [Hnew|[]]. injection Hnew as <- _. now right.
Qed.

Lemma search_listens (env : engine) (target : jsval) :
  truthy target = true -> setup_ok env = true ->
  (forall t r,
      In (t, Request r) (stamp 0 (trace env)) ->
      (t < race_end (stamp 0 (trace env)))%N ->
      In (t, r) (observed (history (snd (search env target)))))
  /\ (forall t r,
         In (t, r) (observed (history (snd (search env target)))) ->
         (t <= race_end (stamp 0 (trace env)))%N
         \/ (t < race_end (stamp 0 (trace env)) + closing env)%N).
Proof.
  intros T S. rewrite search_truthy by exact T. rewrite S.
  set (q := stamp 0 (trace env)).
  destruct (race_delivers q (ready env target)) as (H1 & H2 & _);
    [apply stamp_sorted | reflexivity | reflexivity |].
  set (waited := snd (await_race (ready env target))).
  assert (Hw : observed (history waited)
               = observed (history (snd (pump racing q (ready env target))))).
  { unfold waited. rewrite await_race_state, run_until_state. reflexivity. }
  assert (Hr : raceSettled waited = Some (race_end q)).
  { unfold waited. rewrite await_race_settles. apply Promise_race_end. }
  assert (B : browser waited = true).
  { unfold waited. now destruct (await_race_frame (ready env target)) as (-> & _). }
  rewrite (conclude_launched env waited B). rewrite Hr, run_until_state.
  match goal with
  | |- context [pump ?f ?i ?s] => set (closed := snd (pump f i s))
  end.
  assert (Hfinal : forall res l,
             observed (history
                (print Log l (set_page false (set_browser false
                   (note (Called BrowserClose res)
                      (set_inbox (fst (pump (fun _ t' => (race_end q + closing env <=? t')%N)
                                         (inbox (print Log "Closing browser (finally block)..." waited))
                                         (print Log "Closing browser (finally block)..." waited)))
                         closed))))))
             = observed (history closed)).
  { intros res l. simpl. rewrite observed_app. simpl. apply app_nil_r. }
  assert (Hthrown : forall res,
             observed (history
                (note (Called BrowserClose res)
                   (set_inbox (fst (pump (fun _ t' => (race_end q + closing env <=? t')%N)
                                      (inbox (print Log "Closing browser (finally block)..." waited))
                                      (print Log "Closing browser (finally block)..." waited)))
                      closed)))
             = observed (history closed)).
  { intros res. simpl. rewrite observed_app. simpl. apply app_nil_r. }
  assert (Hobs : observed (history
                    (snd match close env with
                         | Ok => report (set_page false (set_browser false
                                   (note (Called BrowserClose Ok)
                                      (set_inbox (fst (pump (fun _ t' => (race_end q + closing env <=? t')%N)
                                                         (inbox (print Log "Closing browser (finally block)..." waited))
                                                         (print Log "Closing browser (finally block)..." waited)))
                                         closed))))
                         | Throws e =>
                             (inr e, note (Called BrowserClose (Throws e))
                                (set_inbox (fst (pump (fun _ t' => (race_end q + closing env <=? t')%N)
                                                   (inbox (print Log "Closing browser (finally block)..." waited))
                                                   (print Log "Closing browser (finally block)..." waited)))
                                   closed))
                         end))
                 = observed (history closed)).
  { destruct (close env); [rewrite report_state; apply Hfinal | apply Hthrown]. }
  cbn [snd] in Hobs |- *. rewrite Hobs. split.
  - intros t r Hin Hlt. unfold closed. apply pump_observed_mono. simpl.
    rewrite Hw. now apply H2.
  - intros t r Hin. unfold closed in Hin.
    apply closing_delivers in Hin as [Hin|Hlt]; [|now right].
    simpl in Hin. rewrite Hw in Hin.
    destruct (H1 t r Hin) as [[]|Hle]. now left.
Qed.

End Listening.

(** ** C5: the wait is a race *)

(** C5, amended.  The deadline is 10000 ms.  Once the listeners are
    installed, the end of the wait is the first of two moments: the page
    delivers its first qualifying request, or the timer fires.  The search
    stops waiting then and not before: every request the page delivers
    before that moment is handled by the listener, and after it only the
    requests that arrive while [browser.close()] is pending are.  The
    result is the URL of the first qualifying request observed before
    [browser.close()] settles, and [null] when there is none. *)
Theorem wait_is_a_race (env : engine) (target : jsval) :
  truthy target = true -> setup_ok env = true ->
  findTimeout = 10000%N
  /\ raceSettled (snd (search env target))
     = Promise_race (first_manifest_time (stamp 0 (trace env)))
                    (timer findTimeout)
  /\ Promise_race (first_manifest_time (stamp 0 (trace env))) (timer findTimeout)
     = Some (race_end (stamp 0 (trace env)))
  /\ (forall t r,
         In (t, Request r) (stamp 0 (trace env)) ->
         (t < race_end (stamp 0 (trace env)))%N ->
         In (t, r) (observed (history (snd (search env target)))))
  /\ (forall t r,
         In (t, r) (observed (history (snd (search env target)))) ->
         (t <= race_end (stamp 0 (trace env)))%N
         \/ (t < race_end (stamp 0 (trace env)) + closing env)%N)
  /\ m3u8Link (snd (search env target))
     = link_of (first_manifest (observed (history (snd (search env target)))))
  /\ returns_unless_close_rejects env (fst (search env target))
       (link_of (first_manifest (observed (history (snd (search env target)))))).
Proof.
  intros T S. pose proof (search_keeps_invariant env target) as Hinv.
  destruct (search_listens env target T S) as (Hbefore & Hafter).
  split; [reflexivity|]. split; [now apply search_settles|].
  split; [apply Promise_race_end|]. split; [exact Hbefore|].
  split; [exact Hafter|]. split.
  - apply (inv_link _ Hinv).
  - rewrite <- (inv_link _ Hinv). apply search_outcome.
Qed.

Lemma wait_is_a_race_witness :
  findTimeout = 10000%N
  /\ raceSettled (snd (search two_manifests (JString targetUrl)))
     = Promise_race (first_manifest_time (stamp 0 (trace two_manifests)))
                    (timer findTimeout)
  /\ Promise_race (first_manifest_time (stamp 0 (trace two_manifests)))
       (timer findTimeout)
     = Some (race_end (stamp 0 (trace two_manifests)))
  /\ (forall t r,
         In (t, Request r) (stamp 0 (trace two_manifests)) ->
         (t < race_end (stamp 0 (trace two_manifests)))%N ->
         In (t, r)
            (observed (history (snd (search two_manifests (JString targetUrl))))))
  /\ (forall t r,
         In (t, r)
            (observed (history (snd (search two_manifests (JString targetUrl))))) ->
         (t <= race_end (stamp 0 (trace two_manifests)))%N
         \/ (t < race_end (stamp 0 (trace two_manifests))
                 + closing two_manifests)%N)
  /\ m3u8Link (snd (search two_manifests (JString targetUrl)))
     = link_of (first_manifest
                  (observed (history (snd (search two_manifests (JString targetUrl))))))
  /\ returns_unless_close_rejects two_manifests
       (fst (search two_manifests (JString targetUrl)))
       (link_of (first_manifest
                   (observed (history (snd (search two_manifests (JString targetUrl))))))).
Proof.
  apply (wait_is_a_race two_manifests (JString targetUrl)).
  - vm_compute. reflexivity.
  - vm_compute. reflexivity.
Defined.

(** The wait of scenario 3 ends at 500 ms, with the first manifest; with
    the 200 ms the browser takes to close, the manifest of 550 ms is still
    seen by the listener, which aborts it. *)
Example race_end_of_two_manifests :
  race_end (stamp 0 (trace two_manifests)) = 500%N
  /\ map fst (observed (history (snd (search two_manifests (JString targetUrl)))))
     = [100%N; 500%N; 550%N].
Proof. vm_compute. split; reflexivity. Qed.

(** ** How long the search listens *)

Lemma early_end_means_capture (env : engine) (target : jsval) :
  truthy target = true -> setup_ok env = true ->
  (race_end (stamp 0 (trace env)) < findTimeout)%N ->
  m3u8Link (snd (search env target)) <> JNull.
Proof.
  intros T S Hlt.
  set (P := fun st =>
              forall s, raceSettled st = Some s -> (s < findTimeout)%N ->
                        linkFound st = Some s).
  assert (Hd : forall t e s, P s -> P (dispatch t e s)).
  { unfold P. intros t e st H s.
    destruct (dispatch_frame t st e) as (_ & _ & -> & _).
    rewrite dispatch_found. intros Hs Hl. specialize (H s Hs Hl).
    unfold next_found. rewrite H. now destruct (captures e (m3u8Link st)). }
  assert (Hs : forall st,
             P st ->
             P (set_raceSettled (Promise_race (linkFound st) (timer findTimeout)) st)).
  { unfold P. intros st _ s. simpl.
    destruct (linkFound st) as [t|]; simpl; intros H Hl;
      injection H as <-; [f_equal; lia | lia]. }
  assert (Hr : setup_ok env = true -> P (ready env target)).
  { intros _ s H. discriminate H. }
  assert (Hf : setup_ok env = false -> P (setup_failed env target)).
  { rewrite S. discriminate. }
  destruct (search_decomposed P Hd (fun _ _ H => H) (fun _ _ H => H) Hs
              env target Hr Hf T) as (st & Hst & _ & E).
  assert (HP : P (snd (search env target))).
  { rewrite E. destruct (browser st).
    - destruct (close env); [rewrite report_state|]; exact Hst.
    - rewrite report_state. exact Hst. }
  pose proof (search_settles env target T S) as Hset.
  rewrite Promise_race_end in Hset.
  pose proof (HP _ Hset Hlt) as Hfound.
  pose proof (search_keeps_invariant env target) as Hinv.
  rewrite (inv_found _ Hinv) in Hfound. rewrite (inv_link _ Hinv).
  destruct (first_manifest _) as [[t r]|]; simpl in *; discriminate.
Qed.

(** X12.  Once the setup has succeeded, a [null] result means that the
    search listened for the whole deadline: every request the page
    delivered during the first 10000 ms of the wait was handled by the
    listener, and none of them had a URL ending in ".m3u8". *)
Theorem null_result_waits_full_deadline
    (env : engine) (target : jsval) (t : N) (r : request) :
  truthy target = true -> setup_ok env = true ->
  m3u8Link (snd (search env target)) = JNull ->
  In (t, Request r) (stamp 0 (trace env)) -> (t < findTimeout)%N ->
  In (t, r) (observed (history (snd (search env target))))
  /\ qualifies (url r) = false.
Proof.
  intros T S Hnull Hin Hlt.
  assert (E : race_end (stamp 0 (trace env)) = findTimeout).
  { pose proof (race_end_le (stamp 0 (trace env))) as Hle.
    destruct (N.eq_dec (race_end (stamp 0 (trace env))) findTimeout) as [|Hne];
      [assumption|].
    exfalso. apply (early_end_means_capture env target T S); [lia | exact Hnull]. }
  destruct (search_listens env target T S) as (Hbefore & _).
  assert (Hobs : In (t, r) (observed (history (snd (search env target))))).
  { apply Hbefore; [exact Hin | now rewrite E]. }
  split; [exact Hobs|].
  destruct (qualifies (url r)) eqn:Q; [exfalso | reflexivity].
  pose proof (search_keeps_invariant env target) as Hinv.
  destruct (first_manifest_earliest _ t r Hinv Hobs Q) as (t0 & r0 & Hf & _).
  rewrite (inv_link _ Hinv), Hf in Hnull. discriminate Hnull.
Qed.

Lemma null_result_waits_full_deadline_witness :
  In (130%N, plain "https://cdn.example/style.css")
     (observed (history (snd (search no_manifest (JString targetUrl)))))
  /\ qualifies (url (plain "https://cdn.example/style.css")) = false.
Proof.
  apply (null_result_waits_full_deadline no_manifest (JString targetUrl) 130
           (plain "https://cdn.example/style.css")).
  - reflexivity.
  - reflexivity.
  - vm_compute. reflexivity.
  - vm_compute. right. left. reflexivity.
  - vm_compute. reflexivity.
Defined.
